(** * Multiplikationskoll: the session controller of [src/App.tsx]

    A shallow embedding of the quiz component's logic: question
    generation, answer evaluation, scoring, the feedback delay and the
    rolling history.  React state becomes one record, every event handler
    a function on it, and the closures handed to [setTimeout] are kept in
    the state with the values they captured.

    Numbers.  JavaScript numbers that are always integers in this program
    (factors, points, millisecond clock readings) are [Z]; the two places
    where a fraction appears (elapsed seconds, remaining time) use exact
    rationals [Q].  For the points formula the exact value is the one the
    program's doubles give whenever the elapsed time is not negative; the
    section on binary64 at the end computes the formula in doubles and
    shows where the two part.  A value that can be [undefined], [NaN] or
    [null] at run time is a [jsval]. *)

From Stdlib Require Import ZArith QArith Qround List Bool Lia Lqa.
From Stdlib Require Import Permutation Sorted.
From Stdlib Require String DecimalString SpecFloat.
Import ListNotations.
Open Scope Z_scope.

(** ** Types *)

Inductive GameMode := MENU | PRACTICE_SETUP | PLAYING | RESULTS.

Inductive PlayType := PRACTICE | TEST.

Definition GameMode_eqb (x y : GameMode) : bool :=
  match x, y with
  | MENU, MENU | PRACTICE_SETUP, PRACTICE_SETUP
  | PLAYING, PLAYING | RESULTS, RESULTS => true
  | _, _ => false
  end.

Definition PlayType_eqb (x y : PlayType) : bool :=
  match x, y with
  | PRACTICE, PRACTICE | TEST, TEST => true
  | _, _ => false
  end.

(** The run-time values a [number | null] slot can hold here. *)
Inductive jsval :=
| JNum (z : Z)
| JNaN
| JUndefined
| JNull.

(** [x === y] *)
Definition strict_eq (x y : jsval) : bool :=
  match x, y with
  | JNum a, JNum b => a =? b
  | JUndefined, JUndefined => true
  | JNull, JNull => true
  | _, _ => false
  end.

(** [x * y] on numbers; [undefined * n] is [NaN]. *)
Definition js_mul (x y : jsval) : jsval :=
  match x, y with
  | JNum a, JNum b => JNum (a * b)
  | JNull, JNum b => JNum 0
  | JNum a, JNull => JNum 0
  | JNull, JNull => JNum 0
  | _, _ => JNaN
  end.

(** [arr[i]]: [undefined] outside the array. *)
Definition js_index (arr : list Z) (i : Z) : jsval :=
  if i <? 0 then JUndefined
  else match nth_error arr (Z.to_nat i) with
       | Some x => JNum x
       | None => JUndefined
       end.

Record Question := mkQuestion {
  a : jsval;
  b : Z;
  answer : jsval;
  table : jsval
}.

Record Result := mkResult {
  question : Question;
  userAnswer : jsval;
  isCorrect : bool;
  timeTaken : Q;
  points : Z
}.

Module Entry.

(** [id] is the decimal string of a clock reading and [date] its
    rendering in the sv-SE locale; both are kept as the reading. *)
Record HistoryEntry := mkEntry {
  id : Z;
  date : Z;
  type : PlayType;
  score : Z;
  total : Z;
  points : Z;
  isPassed : bool
}.

End Entry.
Abbreviation HistoryEntry := Entry.HistoryEntry.

Inductive Feedback := correct | wrong | timeout.

(** ** Constants *)

Definition MAX_TIME_PER_QUESTION : Z := 6.
Definition MAX_POINTS_PER_QUESTION : Z := 6.
Definition TEST_QUESTION_COUNT : nat := 40.
Definition PASS_SCORE_THRESHOLD : Z := 36.
Definition PASS_SPEED_THRESHOLD : Z := 120.

(** ** The random source

    One call of [Math.random()] yields a number in the unit interval,
    here the fraction [dnum / dden].  [Math.floor(Math.random() * n)] is
    then an integer division. *)

Record Draw := mkDraw { dnum : Z; dden : Z }.

Definition unit_draw (d : Draw) : Prop := 0 <= dnum d < dden d.

Definition floor_scaled (d : Draw) (n : Z) : Z := (dnum d * n) / dden d.

(** ** Question generation *)

(** The body of the [for] loop, run [n] more times from counter [i];
    iteration [i] makes the calls number [2i] and [2i+1] to the random
    source. *)
Fixpoint generate_loop (n i : nat) (rnd : nat -> Draw) (tables : list Z)
    (qList : list Question) : list Question :=
  match n with
  | O => qList
  | S n' =>
      let a := js_index tables
                 (floor_scaled (rnd (2 * i)%nat) (Z.of_nat (length tables))) in
      let b := floor_scaled (rnd (2 * i + 1)%nat) 10 + 1 in
      generate_loop n' (S i) rnd tables
        (qList ++ [mkQuestion a b (js_mul a (JNum b)) a])
  end.

Definition generateQuestions (type : PlayType) (tables : list Z)
    (rnd : nat -> Draw) : list Question :=
  generate_loop TEST_QUESTION_COUNT 0 rnd tables [].

(** ** Component state *)

(** The callback [() => nextQuestion(newResults)] given to [setTimeout],
    with what it closes over: [nextQuestion] belongs to the render in
    which the answer was handled, so it sees that render's
    [currentIndex], [questions] and [playType]. *)
Record Timeout := mkTimeout {
  delay : Z;
  cl_currentIndex : nat;
  cl_questions : list Question;
  cl_playType : PlayType;
  cl_results : list Result
}.

(** The [useState] cells of [App], the [startTimeRef] ref and the
    timeouts not yet run.  [tableColors] only feeds the rendering and is
    left out; [timerRef] is determined by the effect's condition, see
    [timer_running]. *)
Record State := mkState {
  mode : GameMode;
  playType : PlayType;
  selectedTables : list Z;
  questions : list Question;
  currentIndex : nat;
  results : list Result;
  userInput : String.string;
  timeLeft : Q;
  showFeedback : bool;
  feedbackType : option Feedback;
  lastFeedback : option (bool * jsval);
  history : list HistoryEntry;
  startTime : Z;
  pending : list Timeout
}.

(** A handler either returns or throws a [TypeError]. *)
Inductive outcome :=
| Ok (s : State)
| TypeError.

Definition setMode (m : GameMode) (s : State) : State :=
  mkState m (playType s) (selectedTables s) (questions s) (currentIndex s)
    (results s) (userInput s) (timeLeft s) (showFeedback s) (feedbackType s)
    (lastFeedback s) (history s) (startTime s) (pending s).

Definition setPlayType (t : PlayType) (s : State) : State :=
  mkState (mode s) t (selectedTables s) (questions s) (currentIndex s)
    (results s) (userInput s) (timeLeft s) (showFeedback s) (feedbackType s)
    (lastFeedback s) (history s) (startTime s) (pending s).

Definition setSelectedTables (l : list Z) (s : State) : State :=
  mkState (mode s) (playType s) l (questions s) (currentIndex s)
    (results s) (userInput s) (timeLeft s) (showFeedback s) (feedbackType s)
    (lastFeedback s) (history s) (startTime s) (pending s).

Definition setQuestions (q : list Question) (s : State) : State :=
  mkState (mode s) (playType s) (selectedTables s) q (currentIndex s)
    (results s) (userInput s) (timeLeft s) (showFeedback s) (feedbackType s)
    (lastFeedback s) (history s) (startTime s) (pending s).

Definition setCurrentIndex (i : nat) (s : State) : State :=
  mkState (mode s) (playType s) (selectedTables s) (questions s) i
    (results s) (userInput s) (timeLeft s) (showFeedback s) (feedbackType s)
    (lastFeedback s) (history s) (startTime s) (pending s).

Definition setResults (r : list Result) (s : State) : State :=
  mkState (mode s) (playType s) (selectedTables s) (questions s)
    (currentIndex s) r (userInput s) (timeLeft s) (showFeedback s)
    (feedbackType s) (lastFeedback s) (history s) (startTime s) (pending s).

Definition setUserInput (u : String.string) (s : State) : State :=
  mkState (mode s) (playType s) (selectedTables s) (questions s)
    (currentIndex s) (results s) u (timeLeft s) (showFeedback s)
    (feedbackType s) (lastFeedback s) (history s) (startTime s) (pending s).

Definition setTimeLeft (t : Q) (s : State) : State :=
  mkState (mode s) (playType s) (selectedTables s) (questions s)
    (currentIndex s) (results s) (userInput s) t (showFeedback s)
    (feedbackType s) (lastFeedback s) (history s) (startTime s) (pending s).

Definition setShowFeedback (f : bool) (s : State) : State :=
  mkState (mode s) (playType s) (selectedTables s) (questions s)
    (currentIndex s) (results s) (userInput s) (timeLeft s) f
    (feedbackType s) (lastFeedback s) (history s) (startTime s) (pending s).

Definition setFeedbackType (f : option Feedback) (s : State) : State :=
  mkState (mode s) (playType s) (selectedTables s) (questions s)
    (currentIndex s) (results s) (userInput s) (timeLeft s) (showFeedback s)
    f (lastFeedback s) (history s) (startTime s) (pending s).

Definition setLastFeedback (f : option (bool * jsval)) (s : State) : State :=
  mkState (mode s) (playType s) (selectedTables s) (questions s)
    (currentIndex s) (results s) (userInput s) (timeLeft s) (showFeedback s)
    (feedbackType s) f (history s) (startTime s) (pending s).

Definition setHistory (h : list HistoryEntry) (s : State) : State :=
  mkState (mode s) (playType s) (selectedTables s) (questions s)
    (currentIndex s) (results s) (userInput s) (timeLeft s) (showFeedback s)
    (feedbackType s) (lastFeedback s) h (startTime s) (pending s).

Definition setStartTime (t : Z) (s : State) : State :=
  mkState (mode s) (playType s) (selectedTables s) (questions s)
    (currentIndex s) (results s) (userInput s) (timeLeft s) (showFeedback s)
    (feedbackType s) (lastFeedback s) (history s) t (pending s).

Definition setPending (p : list Timeout) (s : State) : State :=
  mkState (mode s) (playType s) (selectedTables s) (questions s)
    (currentIndex s) (results s) (userInput s) (timeLeft s) (showFeedback s)
    (feedbackType s) (lastFeedback s) (history s) (startTime s) p.

(** The state of the first render, with the history read from local
    storage ([[]] when nothing is stored or it does not parse). *)
Definition initial (savedHistory : list HistoryEntry) : State :=
  mkState MENU PRACTICE [] [] 0%nat [] String.EmptyString
    (inject_Z MAX_TIME_PER_QUESTION) false None None savedHistory 0 [].

(** ** Logic *)

Definition resetQuestionState (now : Z) (s : State) : State :=
  setStartTime now
    (setFeedbackType None
       (setShowFeedback false
          (setTimeLeft (inject_Z MAX_TIME_PER_QUESTION)
             (setUserInput String.EmptyString s)))).

Definition startSession (type : PlayType) (tables : list Z)
    (rnd : nat -> Draw) (now : Z) (s : State) : State :=
  let q := generateQuestions type tables rnd in
  resetQuestionState now
    (setMode PLAYING
       (setResults []
          (setCurrentIndex 0%nat
             (setPlayType type
                (setQuestions q s))))).

(** [Math.max(1, Math.ceil(MAX_POINTS_PER_QUESTION *
    (1 - (timeTaken / MAX_TIME_PER_QUESTION))))], computed exactly.  The
    program computes it in doubles, see [double_points]: the two agree
    for elapsed times from 0 on; for some negative whole seconds (the
    clock set back during a question) the doubles give one point
    more. *)
Definition speed_points (timeTaken : Q) : Z :=
  Z.max 1
    (Qceiling (inject_Z MAX_POINTS_PER_QUESTION
               * (1 - timeTaken / inject_Z MAX_TIME_PER_QUESTION))%Q).

(** [handleAnswer(val)], called at clock reading [now] from the handlers
    of the current render.  Reading [currentQ.answer] throws when
    [questions[currentIndex]] is [undefined]. *)
Definition handleAnswer (val : jsval) (now : Z) (s : State) : outcome :=
  if showFeedback s then Ok s
  else
    match nth_error (questions s) (currentIndex s) with
    | None => TypeError
    | Some currentQ =>
        let isCorrect := strict_eq val (answer currentQ) in
        let isTimeout := strict_eq val JNull in
        let timeTaken := ((now - startTime s) # 1000)%Q in
        let fb := if isCorrect then correct
                  else if isTimeout then timeout else wrong in
        let points := if isCorrect then speed_points timeTaken else 0 in
        let result := mkResult currentQ val isCorrect timeTaken points in
        let newResults := results s ++ [result] in
        let delay := if isCorrect then 800 else 2000 in
        Ok (setPending
              (pending s ++
                 [mkTimeout delay (currentIndex s) (questions s) (playType s)
                    newResults])
              (setShowFeedback true
                 (setLastFeedback (Some (isCorrect, answer currentQ))
                    (setResults newResults
                       (setFeedbackType (Some fb) s)))))
    end.

(** [currentResults.filter(r => r.isCorrect).length] *)
Definition totalCorrect (rs : list Result) : Z :=
  Z.of_nat (length (filter isCorrect rs)).

(** [currentResults.reduce((sum, r) => sum + r.points, 0)] *)
Definition totalPoints (rs : list Result) : Z :=
  fold_left (fun sum r => sum + points r) rs 0.

(** The [passed] constant of [nextQuestion]. *)
Definition passed (pt : PlayType) (rs : list Result) : bool :=
  PlayType_eqb pt TEST
  && ((PASS_SCORE_THRESHOLD <=? totalCorrect rs)
      || (PASS_SPEED_THRESHOLD <=? totalPoints rs)).

Definition newEntry (cl : Timeout) (now : Z) : HistoryEntry :=
  Entry.mkEntry now now (cl_playType cl)
    (totalCorrect (cl_results cl))
    (Z.of_nat (length (cl_questions cl)))
    (totalPoints (cl_results cl))
    (passed (cl_playType cl) (cl_results cl)).

(** The test [currentIndex < questions.length - 1] of the captured
    render. *)
Definition more_questions (cl : Timeout) : bool :=
  Z.of_nat (cl_currentIndex cl) <? Z.of_nat (length (cl_questions cl)) - 1.

(** [nextQuestion(currentResults)] as run by a timeout: the branch is
    chosen on the captured values, the updates apply to the state of the
    moment. *)
Definition nextQuestion (cl : Timeout) (now : Z) (s : State) : State :=
  if more_questions cl then
    resetQuestionState now (setCurrentIndex (S (currentIndex s)) s)
  else
    let s1 := setMode RESULTS s in
    setHistory (firstn 20 (newEntry cl now :: history s1)) s1.

(** [prev.includes(t) ? prev.filter(x => x !== t) : [...prev, t]] *)
Definition toggleTable (t : Z) (s : State) : State :=
  setSelectedTables
    (if existsb (Z.eqb t) (selectedTables s)
     then filter (fun x => negb (x =? t)) (selectedTables s)
     else selectedTables s ++ [t])
    s.

(** ** Statistics *)

(** The [stats] memo, without the per-table breakdown. *)
Record Stats := mkStats {
  stats_totalCorrect : Z;
  stats_totalPoints : Z;
  wrongAnswers : list Result
}.

Definition stats (rs : list Result) : option Stats :=
  match rs with
  | [] => None
  | _ => Some (mkStats (totalCorrect rs) (totalPoints rs)
                 (filter (fun r => negb (isCorrect r)) rs))
  end.

(** [playType === TEST && stats && (...)]: [Some b] for a boolean,
    [None] for the [null] that [stats] contributes. *)
Definition isPassed (pt : PlayType) (rs : list Result) : option bool :=
  if PlayType_eqb pt TEST then
    match stats rs with
    | None => None
    | Some st =>
        Some ((PASS_SCORE_THRESHOLD <=? stats_totalCorrect st)
              || (PASS_SPEED_THRESHOLD <=? stats_totalPoints st))
    end
  else Some false.

Definition truthy (v : option bool) : bool :=
  match v with
  | Some b => b
  | None => false
  end.

(** ** Events *)

(** The condition under which the timer effect keeps its 100 ms interval
    armed; the effect's cleanup clears it whenever the condition or
    [currentIndex] changes. *)
Definition timer_running (s : State) : bool :=
  GameMode_eqb (mode s) PLAYING
  && negb (showFeedback s)
  && PlayType_eqb (playType s) TEST.

(** One run of the interval callback. *)
Definition tick (now : Z) (s : State) : outcome :=
  if timer_running s then
    if Qle_bool (timeLeft s) (1 # 10) then
      match handleAnswer JNull now s with
      | Ok s' => Ok (setTimeLeft 0 s')
      | TypeError => TypeError
      end
    else Ok (setTimeLeft (timeLeft s - (1 # 10)) s)
  else Ok s.

(** The start button of the setup screen: [disabled] while no table is
    selected, otherwise [startSession(playType, selectedTables)]. *)
Definition clickStart (rnd : nat -> Draw) (now : Z) (s : State) : State :=
  if (length (selectedTables s) =? 0)%nat then s
  else startSession (playType s) (selectedTables s) rnd now s.

(** An answer handed to [handleAnswer] by the input field, the Enter key
    or the number pad; these exist only while a question is rendered.
    The value is [parseInt] of the typed text, a number or [NaN]. *)
Definition submitAnswer (val : jsval) (now : Z) (s : State) : outcome :=
  match nth_error (questions s) (currentIndex s) with
  | None => Ok s
  | Some _ => handleAnswer val now s
  end.

Definition remove_nth {A} (k : nat) (l : list A) : list A :=
  firstn k l ++ skipn (S k) l.

(** The [k]-th outstanding timeout expires. *)
Definition fire (k : nat) (now : Z) (s : State) : State :=
  match nth_error (pending s) k with
  | None => s
  | Some cl => nextQuestion cl now (setPending (remove_nth k (pending s)) s)
  end.

Inductive Event :=
| ChooseType (t : PlayType)
| ToggleTable (t : Z)
| CancelSetup
| ClickStart (rnd : nat -> Draw) (now : Z)
| Typed (text : String.string)
| Submit (val : jsval) (now : Z)
| GoMenu
| ClearHistory
| Tick (now : Z)
| Fire (k : nat) (now : Z).

(** What an event does when it comes from the screen of the current
    mode, from a timer or from the logo.  [GoMenu] is the logo of the
    navigation bar, present in every mode, and the button of the results
    screen.  [Typed] is any change of the input text, the C key included;
    sounds and confetti have no part in the state and are left out.

    For 0.3 s after a change of mode the screen that was left is still
    mounted for its exit animation, with the handlers of its last
    render; what its controls do is [screen_step] below, of which [step]
    is the case of the current screen. *)
Definition step (e : Event) (s : State) : outcome :=
  match e, mode s with
  | ChooseType t, MENU => Ok (setMode PRACTICE_SETUP (setPlayType t s))
  | ClearHistory, MENU => Ok (setHistory [] s)
  | ToggleTable t, PRACTICE_SETUP => Ok (toggleTable t s)
  | CancelSetup, PRACTICE_SETUP => Ok (setMode MENU s)
  | ClickStart rnd now, PRACTICE_SETUP => Ok (clickStart rnd now s)
  | Typed text, PLAYING => Ok (setUserInput text s)
  | Submit val now, PLAYING => submitAnswer val now s
  | GoMenu, _ => Ok (setMode MENU s)
  | Tick now, _ => tick now s
  | Fire k now, _ => Ok (fire k now s)
  | _, _ => Ok s
  end.

Fixpoint run (es : list Event) (s : State) : outcome :=
  match es with
  | [] => Ok s
  | e :: es' =>
      match step e s with
      | Ok s' => run es' s'
      | TypeError => TypeError
      end
  end.

(** The events of a session that is not left: typing, submitting, the
    countdown and the end of a feedback delay. *)
Inductive in_session : Event -> Prop :=
| in_session_typed text : in_session (Typed text)
| in_session_submit val now : in_session (Submit val now)
| in_session_tick now : in_session (Tick now)
| in_session_fire k now : in_session (Fire k now).


(** ** Predicates used in the statements *)

(** The question pushed by iteration [i] of the generation loop. *)
Definition question_at (rnd : nat -> Draw) (tables : list Z) (i : nat)
    : Question :=
  let a := js_index tables
             (floor_scaled (rnd (2 * i)%nat) (Z.of_nat (length tables))) in
  let b := floor_scaled (rnd (2 * i + 1)%nat) 10 + 1 in
  mkQuestion a b (js_mul a (JNum b)) a.

(** What the specification asks of one generated question. *)
Definition question_ok (tables : list Z) (q : Question) : Prop :=
  exists t,
    In t tables /\ table q = JNum t /\ a q = JNum t
    /\ 1 <= b q <= 10 /\ answer q = JNum (t * b q).

(** The scoring rule in the words of the specification:
    [max(1, ceil(6 * (1 - timeTakenSeconds/6)))]. *)
Definition spec_points (timeTakenSeconds : Q) : Z :=
  Z.max 1 (Qceiling (6 * (1 - timeTakenSeconds / 6))%Q).

(** The [Result] that [handleAnswer] builds for question [q]. *)
Definition result_of (q : Question) (val : jsval) (now : Z) (s : State)
    : Result :=
  let ok := strict_eq val (answer q) in
  let t := ((now - startTime s) # 1000)%Q in
  mkResult q val ok t (if ok then speed_points t else 0).

(** The aggregates of section 4.4 in the words of the specification: the
    count of correct Results and the sum of per-Result points. *)
Fixpoint correctCount (rs : list Result) : Z :=
  match rs with
  | [] => 0
  | r :: rs' => (if isCorrect r then 1 else 0) + correctCount rs'
  end.

Fixpoint pointsSum (rs : list Result) : Z :=
  match rs with
  | [] => 0
  | r :: rs' => points r + pointsSum rs'
  end.

(** ** A sample session

    Every draw is 1/2, so with the tables 3 and 7 all forty questions
    are 7 x 6. *)

Definition demo_draws : nat -> Draw := fun _ => mkDraw 1 2.

(** The state an event sequence leads to; the starting state if it
    throws. *)
Definition after (es : list Event) (s : State) : State :=
  match run es s with
  | Ok s' => s'
  | TypeError => s
  end.

Definition demo_choose : list Event :=
  [ChooseType TEST; ToggleTable 3; ToggleTable 7].

Definition demo_start : list Event :=
  demo_choose ++ [ClickStart demo_draws 1000].

Definition demo_setup : State := after demo_choose (initial []).

Definition demo_session : State := after demo_start (initial []).

(** One question answered correctly and its feedback delay run out. *)
Definition demo_round : list Event := [Submit (JNum 42) 1000; Fire 0 1000].

Fixpoint rounds (n : nat) : list Event :=
  match n with
  | O => []
  | S n' => demo_round ++ rounds n'
  end.

Definition demo_entry (i : Z) : HistoryEntry :=
  Entry.mkEntry i i PRACTICE 0 40 0 false.

Definition demo_history : list HistoryEntry :=
  map demo_entry
    [20; 19; 18; 17; 16; 15; 14; 13; 12; 11; 10; 9; 8; 7; 6; 5; 4; 3; 2; 1].

Definition demo_closure : Timeout :=
  mkTimeout 800 39 (questions demo_session) TEST [].

(** The sample session while the feedback of its first answer is
    shown. *)
Definition demo_answer : list Event := [Submit (JNum 42) 1500].

Definition demo_answered : State := after demo_answer demo_session.

(** The sample session left for the menu during that feedback, and
    during the feedback of its last question. *)
Definition demo_left_early : list Event :=
  demo_start ++ demo_answer ++ [GoMenu].

Definition demo_left_late : list Event :=
  demo_start ++ rounds 39 ++ [Submit (JNum 42) 1000; GoMenu].

(** ** The shape of a running session

    On the question screen the index stays below 40; either a question
    awaits its answer, with one Result per earlier question and no
    timeout outstanding, or the feedback of the current question is
    shown, its Result is already appended and exactly one timeout, the
    one of this answer, is outstanding. *)
Definition session_inv (s : State) : Prop :=
  length (questions s) = 40%nat
  /\ match mode s with
     | PLAYING =>
         (currentIndex s < 40)%nat
         /\ if showFeedback s then
              length (results s) = S (currentIndex s)
              /\ exists d,
                   pending s =
                   [mkTimeout d (currentIndex s) (questions s) (playType s)
                      (results s)]
            else length (results s) = currentIndex s /\ pending s = []
     | RESULTS => pending s = []
     | _ => False
     end.

(** The number of Results a state of the question screen holds beyond
    its index: one during the feedback interval, none otherwise. *)
Definition feedback_offset (s : State) : nat :=
  if showFeedback s then 1%nat else 0%nat.

(** Every state of the question screen holds forty questions. *)
Definition playing_has_40 (s : State) : Prop :=
  mode s = PLAYING -> length (questions s) = 40%nat.

(** ** The answer controls of the question screen

    The handlers of [renderPlaying].  They exist only while
    [questions[currentIndex]] is defined, and the text field is
    [disabled] during feedback.  [parseInt] is the JavaScript builtin,
    taken as a parameter. *)

Section AnswerControls.

Variable parseInt : String.string -> jsval.

(** [onChange] of the text field. *)
Definition onChange (text : String.string) (now : Z) (s : State) : outcome :=
  match nth_error (questions s) (currentIndex s) with
  | None => Ok s
  | Some currentQ =>
      if showFeedback s then Ok s
      else
        let s1 := setUserInput text s in
        if strict_eq (parseInt text) (answer currentQ)
        then handleAnswer (parseInt text) now s1
        else Ok s1
  end.

(** [onKeyDown] of the text field for the Enter key. *)
Definition onEnter (now : Z) (s : State) : outcome :=
  match nth_error (questions s) (currentIndex s) with
  | None => Ok s
  | Some _ =>
      if showFeedback s then Ok s
      else if String.eqb (userInput s) String.EmptyString then Ok s
      else handleAnswer (parseInt (userInput s)) now s
  end.

(** The text of a number pad key: [userInput + num] appends the decimal
    digits of [num]. *)
Definition digits (num : nat) : String.string :=
  DecimalString.NilEmpty.string_of_uint (Nat.to_uint num).

(** A digit key of the number pad. *)
Definition onDigit (num : nat) (now : Z) (s : State) : outcome :=
  match nth_error (questions s) (currentIndex s) with
  | None => Ok s
  | Some currentQ =>
      if showFeedback s then Ok s
      else
        let newVal := String.append (userInput s) (digits num) in
        let s1 := setUserInput newVal s in
        if strict_eq (parseInt newVal) (answer currentQ)
        then handleAnswer (parseInt newVal) now s1
        else Ok s1
  end.

(** The C key. *)
Definition onClear (s : State) : State := setUserInput String.EmptyString s.

(** The OK key. *)
Definition onOk (now : Z) (s : State) : outcome :=
  match nth_error (questions s) (currentIndex s) with
  | None => Ok s
  | Some _ => handleAnswer (parseInt (userInput s)) now s
  end.

End AnswerControls.

(** The state [handleAnswer] returns for question [q] outside the
    feedback interval. *)
Definition answered (q : Question) (val : jsval) (now : Z) (s : State)
    : State :=
  let r := result_of q val now s in
  setPending
    (pending s ++
       [mkTimeout (if isCorrect r then 800 else 2000) (currentIndex s)
          (questions s) (playType s) (results s ++ [r])])
    (setShowFeedback true
       (setLastFeedback (Some (isCorrect r, answer q))
          (setResults (results s ++ [r])
             (setFeedbackType
                (Some (if isCorrect r then correct
                       else if strict_eq val JNull then timeout else wrong))
                s)))).


(** The events of one question answered with [val] at [t1] whose
    feedback delay ends at [t2]. *)
Definition round_events (ans : jsval * Z * Z) : list Event :=
  let '(val, t1, t2) := ans in [Submit val t1; Fire 0 t2].

(** ** Per-table statistics

    The [tableStats] object of the [stats] memo.  A property key is the
    string of [r.question.table]; keys are kept here as the value they
    print.  [Object.entries] lists integer keys below [2^32 - 1] in
    ascending order and then the other keys in their order of
    creation. *)

Record TableStat := mkTableStat { stat_correct : Z; stat_total : Z }.

Definition key_eqb (x y : jsval) : bool :=
  match x, y with
  | JNum a, JNum b => a =? b
  | JNaN, JNaN | JUndefined, JUndefined | JNull, JNull => true
  | _, _ => false
  end.

(** [if (!tableStats[t]) tableStats[t] = { correct: 0, total: 0 };
    tableStats[t].total++; if (r.isCorrect) tableStats[t].correct++;] on
    the properties in creation order. *)
Fixpoint bump (t : jsval) (ok : bool) (obj : list (jsval * TableStat))
    : list (jsval * TableStat) :=
  match obj with
  | [] => [(t, mkTableStat (if ok then 1 else 0) 1)]
  | (k, st) :: rest =>
      if key_eqb t k
      then (k, mkTableStat (stat_correct st + (if ok then 1 else 0))
                 (stat_total st + 1)) :: rest
      else (k, st) :: bump t ok rest
  end.

Definition tableStats (rs : list Result) : list (jsval * TableStat) :=
  fold_left (fun obj r => bump (table (question r)) (isCorrect r) obj) rs [].

Definition integer_key (k : jsval) : bool :=
  match k with
  | JNum z => (0 <=? z) && (z <? 2 ^ 32 - 1)
  | _ => false
  end.

Definition key_number (k : jsval) : Z :=
  match k with
  | JNum z => z
  | _ => 0
  end.

Fixpoint insert_key (e : jsval * TableStat) (l : list (jsval * TableStat))
    : list (jsval * TableStat) :=
  match l with
  | [] => [e]
  | e' :: l' =>
      if key_number (fst e) <=? key_number (fst e')
      then e :: l
      else e' :: insert_key e l'
  end.

Fixpoint sort_keys (l : list (jsval * TableStat))
    : list (jsval * TableStat) :=
  match l with
  | [] => []
  | e :: l' => insert_key e (sort_keys l')
  end.

(** [Object.entries(tableStats)] *)
Definition entries (obj : list (jsval * TableStat))
    : list (jsval * TableStat) :=
  sort_keys (filter (fun e => integer_key (fst e)) obj)
  ++ filter (fun e => negb (integer_key (fst e))) obj.

(** [s.correct / s.total < 0.8]; a division by zero gives [NaN] or
    [Infinity], for which the comparison is false. *)
Definition below_80 (st : TableStat) : bool :=
  if stat_total st =? 0 then false
  else negb (Qle_bool (8 # 10)
               (inject_Z (stat_correct st) / inject_Z (stat_total st))).

(** The order in which integer keys are listed. *)
Definition key_le (x y : jsval) : Prop := key_number x <= key_number y.

Definition key_lt (x y : jsval) : Prop := key_number x < key_number y.

(** The [needsPractice] list of the [stats] memo. *)
Definition needsPractice (rs : list Result) : list jsval :=
  map fst (filter (fun e => below_80 (snd e)) (entries (tableStats rs))).

(** The Results on table [t], and the correct ones among them. *)
Definition on_table (t : jsval) (rs : list Result) : list Result :=
  filter (fun r => key_eqb (table (question r)) t) rs.

Definition table_total (t : jsval) (rs : list Result) : Z :=
  Z.of_nat (length (on_table t rs)).

Definition table_correct (t : jsval) (rs : list Result) : Z :=
  Z.of_nat (length (filter isCorrect (on_table t rs))).

(** ** Table colours *)

Section Colours.

Import String.

Definition COLOR_PALETTE : list String.string :=
  ["#64748b"; "#3b82f6"; "#6366f1"; "#8b5cf6"; "#a855f7";
   "#d946ef"; "#ec4899"; "#f43f5e"; "#ef4444"; "#f97316";
   "#f59e0b"; "#eab308"; "#84cc16"; "#22c55e"; "#10b981"; "#06b6d4"]%string.

(** A [Record<number, string>]: the colour stored under a table, [None]
    where the object has no such property. *)
Definition TableColors := Z -> option String.string.

Definition DEFAULT_COLORS : TableColors :=
  fun t =>
    match t with
    | 1 => Some "#64748b" | 2 => Some "#3b82f6" | 3 => Some "#6366f1"
    | 4 => Some "#8b5cf6" | 5 => Some "#a855f7" | 6 => Some "#d946ef"
    | 7 => Some "#ec4899" | 8 => Some "#f43f5e" | 9 => Some "#f97316"
    | 10 => Some "#f59e0b"
    | _ => None
    end%string.

(** [COLOR_PALETTE.indexOf(c)], counted from [i]: the first position
    holding [c], [-1] if there is none; [undefined] is never found. *)
Fixpoint indexOf_from (i : Z) (l : list String.string)
    (c : option String.string) : Z :=
  match l with
  | [] => -1
  | x :: l' =>
      match c with
      | Some y => if String.eqb x y then i else indexOf_from (i + 1) l' c
      | None => -1
      end
  end.

Definition indexOf (l : list String.string) (c : option String.string) : Z :=
  indexOf_from 0 l c.

(** The colour [cycleTableColor] stores in place of [currentColor]. *)
Definition next_color (currentColor : option String.string)
    : option String.string :=
  let currentIndex := indexOf COLOR_PALETTE currentColor in
  let nextIndex :=
    Z.rem (currentIndex + 1) (Z.of_nat (List.length COLOR_PALETTE)) in
  nth_error COLOR_PALETTE (Z.to_nat nextIndex).

(** The updater of [cycleTableColor]: [{ ...prev, [t]: ... }]. *)
Definition cycleTableColor (t : Z) (prev : TableColors) : TableColors :=
  fun k => if k =? t then next_color (prev t) else prev k.

End Colours.

(** ** Lightening a colour

    [Math.min(255, Math.floor(c + (255 - c) * amount))] for one channel,
    [NaN] when the channel did not parse. *)
Definition to_number (v : jsval) : option Z :=
  match v with
  | JNum z => Some z
  | JNull => Some 0
  | JNaN | JUndefined => None
  end.

Definition lighten_channel (c : jsval) (amount : Q) : jsval :=
  match to_number c with
  | Some r =>
      JNum (Z.min 255
              (Qfloor (inject_Z r + (255 - inject_Z r) * amount)%Q))
  | None => JNaN
  end.

(** [lightenColor(hex, amount)]: the three numbers printed into
    [rgb(lr, lg, lb)].  [parseHex s] is [parseInt(s, 16)]. *)
Definition lightenColor (parseHex : String.string -> jsval)
    (hex : String.string) (amount : Q) : jsval * jsval * jsval :=
  let r := parseHex (String.substring 1 2 hex) in
  let g := parseHex (String.substring 3 2 hex) in
  let b := parseHex (String.substring 5 2 hex) in
  (lighten_channel r amount, lighten_channel g amount,
   lighten_channel b amount).

(** ** What the screens can send

    The table buttons are those of the tables 1 to 10, and the random
    source yields numbers of the unit interval. *)
Definition ui_event (e : Event) : Prop :=
  match e with
  | ToggleTable t => 1 <= t <= 10
  | ClickStart rnd _ => forall k, unit_draw (rnd k)
  | _ => True
  end.

(** A question of the tables 1 to 10. *)
Definition question_in_range (q : Question) : Prop :=
  exists t,
    1 <= t <= 10 /\ 1 <= b q <= 10
    /\ a q = JNum t /\ table q = JNum t /\ answer q = JNum (t * b q).

(** Forty times the right answer of the sample session, given half a
    second into the question, the delay over 800 ms later. *)
Definition demo_answers : list (jsval * Z * Z) :=
  repeat (JNum 42, 1500, 2300) 40.

(** Clock readings of 59 interval callbacks, 100 ms apart. *)
Definition demo_ticks : list Z :=
  map (fun i => 1000 + 100 * Z.of_nat i) (seq 1 59).

Section Samples.

Import String.

(** The text of the right answer of the sample session. *)
Definition demo_text : string := "42".

(** A stand-in for [parseInt] on the texts used in the examples. *)
Definition demo_parseInt (text : string) : jsval :=
  if String.eqb text demo_text then JNum 42 else JNaN.

End Samples.

(** Results on three tables, given in the order 10, 7, 3: table 10 with
    0 of 1 correct, table 7 with 3 of 5, table 3 with 4 of 5. *)
Definition demo_result (t : Z) (ok : bool) : Result :=
  mkResult (mkQuestion (JNum t) 6 (JNum (t * 6)) (JNum t))
    (if ok then JNum (t * 6) else JNum 0) ok 1 (if ok then 5 else 0).

Definition demo_mixed : list Result :=
  [demo_result 10 false;
   demo_result 7 true; demo_result 3 true; demo_result 7 false;
   demo_result 3 true; demo_result 7 true; demo_result 3 false;
   demo_result 7 false; demo_result 3 true; demo_result 7 true;
   demo_result 3 true].

(** The colours after the buttons of the tables [ts] were used in
    turn. *)
Definition cycled (ts : list Z) (colors : TableColors) : TableColors :=
  fold_left (fun m t => cycleTableColor t m) ts colors.

(** A channel [c] lightened from the value [r]. *)
Definition lightened (c : jsval) (r : Z) : Prop :=
  exists l, c = JNum l /\ r <= l <= 255.

Section SampleColour.

Import String.

(** A stand-in for [parseInt(s, 16)] on the channels of [#3b82f6]. *)
Definition demo_hex : string := "#3b82f6".

Definition demo_parseHex (s : string) : jsval :=
  if String.eqb s "3b" then JNum 59
  else if String.eqb s "82" then JNum 130
  else if String.eqb s "f6" then JNum 246
  else JNaN.

End SampleColour.

(** ** Controls of a screen that is being left

    [AnimatePresence mode="wait"] with [key={mode}] keeps the screen of
    the previous mode mounted while its exit animation runs.  Its
    handlers are those of its last render [c]: they read the values
    captured there and write to the state [s] of the moment.  Updates
    given as a function ([setSelectedTables(prev => ...)]) and the
    [startTimeRef] ref use the current values. *)

(** [handleAnswer(val)] of the render [c], run in state [s]. *)
Definition handleAnswer_of (c : State) (val : jsval) (now : Z) (s : State)
    : outcome :=
  if showFeedback c then Ok s
  else
    match nth_error (questions c) (currentIndex c) with
    | None => TypeError
    | Some currentQ =>
        let isCorrect := strict_eq val (answer currentQ) in
        let isTimeout := strict_eq val JNull in
        let timeTaken := ((now - startTime s) # 1000)%Q in
        let fb := if isCorrect then correct
                  else if isTimeout then timeout else wrong in
        let points := if isCorrect then speed_points timeTaken else 0 in
        let result := mkResult currentQ val isCorrect timeTaken points in
        let newResults := results c ++ [result] in
        let delay := if isCorrect then 800 else 2000 in
        Ok (setPending
              (pending s ++
                 [mkTimeout delay (currentIndex c) (questions c) (playType c)
                    newResults])
              (setShowFeedback true
                 (setLastFeedback (Some (isCorrect, answer currentQ))
                    (setResults newResults
                       (setFeedbackType (Some fb) s)))))
    end.

(** What an event does when its control belongs to the screen rendered
    from [c]: the current screen when [c] is the current state, the
    screen being left when [c] is the state of its last render.  The
    timers and the logo do not belong to a screen. *)
Definition screen_step (e : Event) (c s : State) : outcome :=
  match e, mode c with
  | ChooseType t, MENU => Ok (setMode PRACTICE_SETUP (setPlayType t s))
  | ClearHistory, MENU => Ok (setHistory [] s)
  | ToggleTable t, PRACTICE_SETUP => Ok (toggleTable t s)
  | CancelSetup, PRACTICE_SETUP => Ok (setMode MENU s)
  | ClickStart rnd now, PRACTICE_SETUP =>
      Ok (if (length (selectedTables c) =? 0)%nat then s
          else startSession (playType c) (selectedTables c) rnd now s)
  | Typed text, PLAYING => Ok (setUserInput text s)
  | Submit val now, PLAYING =>
      match nth_error (questions c) (currentIndex c) with
      | None => Ok s
      | Some _ => handleAnswer_of c val now s
      end
  | GoMenu, _ => Ok (setMode MENU s)
  | Tick now, _ => tick now s
  | Fire k now, _ => Ok (fire k now s)
  | _, _ => Ok s
  end.

(** The sample session left for the menu before its first answer, and
    the table selection left by its cancel button. *)
Definition demo_left_unanswered : State := setMode MENU demo_session.

Definition demo_cancelled : State := setMode MENU demo_setup.

(** ** The points formula in binary64

    Lines 276 and 298 of the source in IEEE doubles (53 bits of
    precision, exponents up to 1024), for an elapsed time of [ms]
    milliseconds: [timeTaken = ms / 1000], then
    [Math.max(1, Math.ceil(6 * (1 - (timeTaken / 6))))]. *)

Definition dbl_of_Z (z : Z) : SpecFloat.spec_float :=
  SpecFloat.binary_normalize 53 1024 z 0 false.

Definition dbl_div := SpecFloat.SFdiv 53 1024.
Definition dbl_mul := SpecFloat.SFmul 53 1024.
Definition dbl_sub := SpecFloat.SFsub 53 1024.

(** [Math.ceil] of a finite double, as an integer. *)
Definition dbl_ceil (x : SpecFloat.spec_float) : option Z :=
  match x with
  | SpecFloat.S754_zero _ => Some 0
  | SpecFloat.S754_finite sign m e =>
      let n := if sign then Z.neg m else Z.pos m in
      Some (if 0 <=? e then n * 2 ^ e else - ((- n) / 2 ^ (- e)))
  | _ => None
  end.

Definition double_points (ms : Z) : option Z :=
  let timeTaken := dbl_div (dbl_of_Z ms) (dbl_of_Z 1000) in
  match dbl_ceil
          (dbl_mul (dbl_of_Z MAX_POINTS_PER_QUESTION)
             (dbl_sub (dbl_of_Z 1)
                (dbl_div timeTaken (dbl_of_Z MAX_TIME_PER_QUESTION)))) with
  | Some c => Some (Z.max 1 c)
  | None => None
  end.

(** The exact value on a millisecond reading. *)
Definition exact_points (ms : Z) : Z := Z.max 1 (6 - ms / 1000).

Definition agree_on (ms : Z) : bool :=
  match double_points ms with
  | Some p => p =? exact_points ms
  | None => false
  end.

Definition millis_from (lo : Z) (n : nat) : list Z :=
  map (fun i => lo + Z.of_nat i) (seq 0 n).
(** * Properties *)

(** ** Field access through the setters *)

Ltac simpl_state :=
  cbn [mode playType selectedTables questions currentIndex results userInput
       timeLeft showFeedback feedbackType lastFeedback history startTime
       pending resetQuestionState setMode setPlayType setSelectedTables
       setQuestions setCurrentIndex setResults setUserInput setTimeLeft
       setShowFeedback setFeedbackType setLastFeedback setHistory
       setStartTime setPending] in *.

(** ** Question generation *)

Section Generation.

Variable rnd : nat -> Draw.
Variable tables : list Z.

Lemma generate_loop_length n : forall i qList,
  length (generate_loop n i rnd tables qList) = (length qList + n)%nat.
Proof.
  induction n as [|n IH]; intros i qList; cbn [generate_loop].
  - lia.
  - rewrite IH, length_app. cbn [length]. lia.
Qed.

Lemma generate_loop_In n : forall i qList q,
  In q (generate_loop n i rnd tables qList) ->
  In q qList \/ exists j, (i <= j < i + n)%nat /\ q = question_at rnd tables j.
Proof.
  induction n as [|n IH]; intros i qList q Hq; cbn [generate_loop] in Hq.
  - now left.
  - apply IH in Hq. destruct Hq as [Hq | (j & Hj & ->)].
    + apply in_app_or in Hq. destruct Hq as [Hq | [<- | []]].
      * now left.
      * right. exists i. split; [lia | reflexivity].
    + right. exists j. split; [lia | reflexivity].
Qed.

End Generation.

Lemma floor_scaled_range d n :
  unit_draw d -> 0 < n -> 0 <= floor_scaled d n < n.
Proof.
  unfold unit_draw, floor_scaled. intros [Hlo Hhi] Hn. split.
  - apply Z.div_pos; nia.
  - apply Z.div_lt_upper_bound; nia.
Qed.

Lemma js_index_in_range arr i :
  0 <= i < Z.of_nat (length arr) ->
  exists t, js_index arr i = JNum t /\ In t arr.
Proof.
  intros Hi. unfold js_index.
  destruct (Z.ltb_spec i 0) as [Hneg | _]; [lia |].
  destruct (nth_error arr (Z.to_nat i)) as [t |] eqn:Hnth.
  - exists t. split; [reflexivity | eapply nth_error_In; eassumption].
  - apply nth_error_None in Hnth. lia.
Qed.

Lemma question_at_ok rnd tables i :
  tables <> [] -> (forall k, unit_draw (rnd k)) ->
  question_ok tables (question_at rnd tables i).
Proof.
  intros Hne Hrnd.
  assert (Hlen : 0 < Z.of_nat (length tables))
    by (destruct tables; [congruence | cbn [length]; lia]).
  pose proof (floor_scaled_range _ _ (Hrnd (2 * i)%nat) Hlen) as Hidx.
  pose proof (floor_scaled_range (rnd (2 * i + 1)%nat) 10
                (Hrnd _) ltac:(lia)) as Hb.
  destruct (js_index_in_range tables _ Hidx) as (t & Ht & Hin).
  exists t. unfold question_at. cbn [table a b answer].
  rewrite Ht. cbn [js_mul]. repeat split; try assumption; lia.
Qed.

Lemma generateQuestions_length type tables rnd :
  length (generateQuestions type tables rnd) = 40%nat.
Proof. unfold generateQuestions. now rewrite generate_loop_length. Qed.

Lemma generateQuestions_ok type tables rnd :
  tables <> [] -> (forall k, unit_draw (rnd k)) ->
  Forall (question_ok tables) (generateQuestions type tables rnd).
Proof.
  intros Hne Hrnd. apply Forall_forall. intros q Hin.
  unfold generateQuestions in Hin. apply generate_loop_In in Hin.
  destruct Hin as [[] | (j & _ & ->)]. now apply question_at_ok.
Qed.

Lemma startSession_questions type tables rnd now s :
  questions (startSession type tables rnd now s)
  = generateQuestions type tables rnd.
Proof. reflexivity. Qed.

(** C3. A session started, in either play type, on a non-empty selection
    of tables with draws from the unit interval is on the question
    screen with exactly 40 questions, and every one of them has its table
    among the selected ones, the table as first factor, a second factor
    between 1 and 10 and the product of the two factors as answer. *)
Theorem C3_generated_questions :
  forall (type : PlayType) (tables : list Z) (rnd : nat -> Draw)
         (now : Z) (s : State),
    tables <> [] ->
    (forall k, unit_draw (rnd k)) ->
    let s' := startSession type tables rnd now s in
    mode s' = PLAYING
    /\ length (questions s') = 40%nat
    /\ Forall (question_ok tables) (questions s').
Proof.
  intros type tables rnd now s Hne Hrnd s'. subst s'.
  rewrite startSession_questions.
  split; [reflexivity | split].
  - apply generateQuestions_length.
  - now apply generateQuestions_ok.
Qed.

(** A run of C3 on the tables 3 and 7 with every draw equal to 1/2. *)
Lemma C3_generated_questions_witness :
  let s' := startSession TEST [3; 7] demo_draws 1000 demo_setup in
  mode s' = PLAYING
  /\ length (questions s') = 40%nat
  /\ Forall (question_ok [3; 7]) (questions s').
Proof.
  apply (C3_generated_questions TEST [3; 7] demo_draws 1000 demo_setup).
  - discriminate.
  - intros k. unfold unit_draw, demo_draws. cbn [dnum dden]. lia.
Defined.

(** ** Answer evaluation *)

Lemma handleAnswer_feedback val now s :
  showFeedback s = true -> handleAnswer val now s = Ok s.
Proof. intros H. unfold handleAnswer. now rewrite H. Qed.

Lemma handleAnswer_fresh val now s q :
  showFeedback s = false ->
  nth_error (questions s) (currentIndex s) = Some q ->
  exists s',
    handleAnswer val now s = Ok s'
    /\ results s' = results s ++ [result_of q val now s]
    /\ pending s' =
         pending s ++
           [mkTimeout (if strict_eq val (answer q) then 800 else 2000)
              (currentIndex s) (questions s) (playType s)
              (results s ++ [result_of q val now s])]
    /\ showFeedback s' = true
    /\ feedbackType s' =
         Some (if strict_eq val (answer q) then correct
               else if strict_eq val JNull then timeout else wrong)
    /\ mode s' = mode s /\ playType s' = playType s
    /\ questions s' = questions s /\ currentIndex s' = currentIndex s
    /\ history s' = history s /\ selectedTables s' = selectedTables s.
Proof.
  intros Hfb Hq. unfold handleAnswer. rewrite Hfb, Hq.
  eexists. split; [reflexivity |]. simpl_state. unfold result_of.
  repeat split; reflexivity.
Qed.

Lemma speed_points_spec t : speed_points t = spec_points t.
Proof. reflexivity. Qed.

(** The rule on a millisecond reading: one point less for every full
    second, never below one. *)
Lemma speed_points_millis ms :
  speed_points (ms # 1000) = Z.max 1 (6 - ms / 1000).
Proof.
  unfold speed_points, MAX_POINTS_PER_QUESTION, MAX_TIME_PER_QUESTION.
  f_equal.
  assert (E : (inject_Z 6 * (1 - (ms # 1000) / inject_Z 6)
               == (6000 - ms) # 1000)%Q).
  { rewrite (Qmake_Qdiv ms 1000), (Qmake_Qdiv (6000 - ms) 1000).
    unfold Zminus. rewrite inject_Z_plus, inject_Z_opp. field. }
  rewrite (Qceiling_comp _ _ E).
  unfold Qceiling, Qfloor, Qopp. cbn [Qnum Qden].
  replace (- (6000 - ms)) with (ms + (-6) * 1000) by ring.
  rewrite Z.div_add by discriminate. ring.
Qed.

Lemma speed_points_at (t c : Q) :
  (t == c)%Q -> speed_points t = speed_points c.
Proof.
  intros E. unfold speed_points. f_equal. apply Qceiling_comp.
  now rewrite E.
Qed.

Lemma speed_points_within ms :
  0 <= ms -> 1 <= speed_points (ms # 1000) <= 6.
Proof.
  intros Hms. rewrite speed_points_millis.
  pose proof (Z.div_pos ms 1000 Hms ltac:(lia)). lia.
Qed.

Lemma strict_eq_num val p : strict_eq val (JNum p) = true <-> val = JNum p.
Proof.
  destruct val; cbn [strict_eq]; try (split; [discriminate | congruence]).
  rewrite Z.eqb_eq. split; congruence.
Qed.

(** C2. An answer handled outside the feedback state adds one Result
    for the current question, with the submitted value and timed from the
    start of the question.  The Result is correct exactly when the value
    [===] the product.  A wrong or missing answer earns 0 points.  A
    correct one earns 6 points at an elapsed time of 0 and 1 point at 6
    seconds, and for every clock reading not before the start of the
    question [max(1, ceil(6 * (1 - t/6)))] points for its elapsed time
    [t], which is between 1 and 6. *)
Theorem C2_points_awarded :
  forall (val : jsval) (now : Z) (s : State) (q : Question),
    showFeedback s = false ->
    nth_error (questions s) (currentIndex s) = Some q ->
    exists s' r,
      handleAnswer val now s = Ok s'
      /\ results s' = results s ++ [r]
      /\ question r = q /\ userAnswer r = val
      /\ timeTaken r = ((now - startTime s) # 1000)%Q
      /\ isCorrect r = strict_eq val (answer q)
      /\ (forall p, answer q = JNum p ->
            (isCorrect r = true <-> val = JNum p))
      /\ (startTime s <= now -> isCorrect r = true ->
          points r = spec_points (timeTaken r) /\ 1 <= points r <= 6)
      /\ (isCorrect r = true -> (timeTaken r == 0)%Q -> points r = 6)
      /\ (isCorrect r = true -> (timeTaken r == 6)%Q -> points r = 1)
      /\ (isCorrect r = false -> points r = 0)
      /\ (forall p, answer q = JNum p -> val = JNull -> points r = 0).
Proof.
  intros val now s q Hfb Hq.
  destruct (handleAnswer_fresh val now s q Hfb Hq) as (s' & Hs' & Hres & _).
  exists s', (result_of q val now s).
  split; [exact Hs' | split; [exact Hres |]].
  unfold result_of.
  cbn [question userAnswer timeTaken isCorrect points].
  do 4 (split; [reflexivity |]).
  split.
  { intros p Hp. rewrite Hp. apply strict_eq_num. }
  destruct (strict_eq val (answer q)) eqn:E.
  - split; [intros Hnow _; split;
            [reflexivity | apply speed_points_within; lia] |].
    split; [intros _ E0; now rewrite (speed_points_at _ _ E0) |].
    split; [intros _ E6; now rewrite (speed_points_at _ _ E6) |].
    split; [discriminate |].
    intros p Hp ->. rewrite Hp in E. discriminate E.
  - split; [discriminate |]. split; [discriminate |].
    split; [discriminate |]. split; reflexivity.
Qed.

(** The right answer of the sample session given 2.5 seconds into the
    question: correct, 4 points. *)
Lemma C2_points_awarded_witness :
  exists s' r,
    handleAnswer (JNum 42) 3500 demo_session = Ok s'
    /\ results s' = results demo_session ++ [r]
    /\ question r = mkQuestion (JNum 7) 6 (JNum 42) (JNum 7)
    /\ userAnswer r = JNum 42
    /\ isCorrect r = true /\ points r = 4.
Proof.
  destruct (C2_points_awarded (JNum 42) 3500 demo_session
              (mkQuestion (JNum 7) 6 (JNum 42) (JNum 7)))
    as (s' & r & Hs' & Hres & Hq & Hval & Ht & _ & Hiff & Hp & _);
    [vm_compute; reflexivity | vm_compute; reflexivity |].
  exists s', r.
  assert (Hok : isCorrect r = true) by (apply (Hiff 42); reflexivity).
  assert (Hnow : startTime demo_session <= 3500)
    by (replace (startTime demo_session) with 1000
          by (vm_compute; reflexivity); lia).
  destruct (Hp Hnow Hok) as [Hpts _].
  repeat split; try assumption.
  rewrite Hpts, Ht. vm_compute. reflexivity.
Defined.

(** C4. The Result of an answer records the submitted value and is
    correct exactly when that value is the question's product; a missing
    answer ([null], the timeout) is shown as a timeout and recorded as an
    incorrect Result without points. *)
Theorem C4_correct_iff_product :
  forall (val : jsval) (now : Z) (s : State) (q : Question) (p : Z),
    showFeedback s = false ->
    nth_error (questions s) (currentIndex s) = Some q ->
    answer q = JNum p ->
    exists s' r,
      handleAnswer val now s = Ok s'
      /\ results s' = results s ++ [r]
      /\ question r = q
      /\ userAnswer r = val
      /\ isCorrect r = strict_eq val (answer q)
      /\ (isCorrect r = true <-> val = JNum p)
      /\ (val = JNull ->
          isCorrect r = false /\ points r = 0
          /\ feedbackType s' = Some timeout).
Proof.
  intros val now s q p Hfb Hq Hp.
  destruct (handleAnswer_fresh val now s q Hfb Hq)
    as (s' & Hs' & Hres & _ & _ & Hft & _).
  exists s', (result_of q val now s).
  split; [exact Hs' | split; [exact Hres |]].
  unfold result_of. cbn [question userAnswer isCorrect points].
  repeat split; rewrite ?Hft, ?Hp in *.
  - destruct val; cbn [strict_eq]; try discriminate.
    intros E. apply Z.eqb_eq in E. now subst.
  - intros ->. cbn [strict_eq]. apply Z.eqb_refl.
  - now subst val.
  - now subst val.
  - now subst val.
Qed.

Lemma C4_correct_iff_product_witness :
  exists s' r,
    handleAnswer JNull 7000 demo_session = Ok s'
    /\ results s' = results demo_session ++ [r]
    /\ question r = mkQuestion (JNum 7) 6 (JNum 42) (JNum 7)
    /\ userAnswer r = JNull
    /\ isCorrect r = strict_eq JNull (JNum 42)
    /\ (isCorrect r = true <-> JNull = JNum 42)
    /\ (JNull = JNull ->
        isCorrect r = false /\ points r = 0
        /\ feedbackType s' = Some timeout).
Proof.
  apply (C4_correct_iff_product JNull 7000 demo_session
           (mkQuestion (JNum 7) 6 (JNum 42) (JNum 7)) 42);
    vm_compute; reflexivity.
Defined.

(** When the countdown has run out the interval callback submits the
    missing answer. *)
Lemma tick_expired now s :
  timer_running s = true -> Qle_bool (timeLeft s) (1 # 10) = true ->
  tick now s = match handleAnswer JNull now s with
               | Ok s' => Ok (setTimeLeft 0 s')
               | TypeError => TypeError
               end.
Proof. intros Hrun Hle. unfold tick. now rewrite Hrun, Hle. Qed.

(** C7. While the feedback of an answered question is shown, a further
    submission, from the controls or from the countdown, leaves the whole
    state as it is. *)
Theorem C7_duplicate_submission_ignored :
  forall (val : jsval) (now : Z) (s : State),
    showFeedback s = true ->
    handleAnswer val now s = Ok s
    /\ step (Submit val now) s = Ok s
    /\ step (Tick now) s = Ok s.
Proof.
  intros val now s Hfb.
  pose proof (handleAnswer_feedback val now s Hfb) as Hh.
  split; [exact Hh | split].
  - unfold step, submitAnswer. rewrite Hh.
    destruct (mode s); try reflexivity.
    now destruct (nth_error (questions s) (currentIndex s)).
  - unfold step, tick, timer_running. rewrite Hfb.
    rewrite andb_false_r. now destruct (mode s).
Qed.

Lemma C7_duplicate_submission_ignored_witness :
  handleAnswer (JNum 41) 1600 demo_answered = Ok demo_answered
  /\ step (Submit (JNum 41) 1600) demo_answered = Ok demo_answered
  /\ step (Tick 1600) demo_answered = Ok demo_answered.
Proof.
  apply (C7_duplicate_submission_ignored (JNum 41) 1600 demo_answered).
  vm_compute; reflexivity.
Defined.

(** The same for a submission that follows a fresh answer. *)
Lemma second_submission_ignored val now s s' val2 now2 :
  showFeedback s = false ->
  handleAnswer val now s = Ok s' ->
  handleAnswer val2 now2 s' = Ok s'.
Proof.
  intros Hfb Hs. apply handleAnswer_feedback.
  unfold handleAnswer in Hs. rewrite Hfb in Hs.
  destruct (nth_error (questions s) (currentIndex s)); [| discriminate].
  injection Hs as <-. reflexivity.
Qed.

(** ** Scoring and history at completion *)

Lemma totalCorrect_count rs : totalCorrect rs = correctCount rs.
Proof.
  unfold totalCorrect. induction rs as [|r rs IH]; [reflexivity |].
  cbn [filter correctCount]. destruct (isCorrect r); cbn [length]; lia.
Qed.

Lemma fold_points rs : forall acc,
  fold_left (fun sum r => sum + points r) rs acc = acc + pointsSum rs.
Proof.
  induction rs as [|r rs IH]; intros acc; cbn [fold_left pointsSum].
  - lia.
  - rewrite IH. lia.
Qed.

Lemma totalPoints_sum rs : totalPoints rs = pointsSum rs.
Proof. unfold totalPoints. now rewrite fold_points. Qed.

Lemma passed_iff pt rs :
  passed pt rs = true <->
  pt = TEST /\ (36 <= correctCount rs \/ 120 <= pointsSum rs).
Proof.
  unfold passed, PASS_SCORE_THRESHOLD, PASS_SPEED_THRESHOLD.
  rewrite totalCorrect_count, totalPoints_sum.
  rewrite andb_true_iff, orb_true_iff, !Z.leb_le.
  destruct pt; cbn [PlayType_eqb]; intuition congruence.
Qed.

Lemma nextQuestion_last cl now s :
  more_questions cl = false ->
  nextQuestion cl now s =
  setHistory (firstn 20 (newEntry cl now :: history s)) (setMode RESULTS s).
Proof. intros H. unfold nextQuestion. now rewrite H. Qed.

(** C1. When the feedback delay of the last question runs out, the
    results screen is entered and the entry written to the history
    carries the session's type, its count of correct Results and its sum
    of points; it is marked passed exactly when the type is Test and the
    count reaches 36 or the sum reaches 120, so never for Practice. *)
Theorem C1_passed_rule :
  forall (cl : Timeout) (now : Z) (s : State),
    more_questions cl = false ->
    let s' := nextQuestion cl now s in
    mode s' = RESULTS
    /\ exists e,
         hd_error (history s') = Some e
         /\ Entry.type e = cl_playType cl
         /\ Entry.score e = correctCount (cl_results cl)
         /\ Entry.points e = pointsSum (cl_results cl)
         /\ (Entry.isPassed e = true <->
             Entry.type e = TEST
             /\ (36 <= Entry.score e \/ 120 <= Entry.points e))
         /\ (Entry.type e = PRACTICE -> Entry.isPassed e = false).
Proof.
  intros cl now s Hlast s'. subst s'. rewrite (nextQuestion_last _ _ _ Hlast).
  simpl_state. split; [reflexivity |].
  exists (newEntry cl now). unfold newEntry.
  cbn [firstn hd_error Entry.type Entry.score Entry.points Entry.isPassed].
  rewrite totalCorrect_count, totalPoints_sum.
  split; [reflexivity |]. split; [reflexivity |].
  split; [reflexivity |]. split; [reflexivity |].
  split; [apply passed_iff |].
  intros Hp. unfold passed. now rewrite Hp.
Qed.

Lemma C1_passed_rule_witness :
  let s' := nextQuestion demo_closure 2000 demo_answered in
  mode s' = RESULTS
  /\ exists e,
       hd_error (history s') = Some e
       /\ Entry.type e = cl_playType demo_closure
       /\ Entry.score e = correctCount (cl_results demo_closure)
       /\ Entry.points e = pointsSum (cl_results demo_closure)
       /\ (Entry.isPassed e = true <->
           Entry.type e = TEST
           /\ (36 <= Entry.score e \/ 120 <= Entry.points e))
       /\ (Entry.type e = PRACTICE -> Entry.isPassed e = false).
Proof.
  apply (C1_passed_rule demo_closure 2000 demo_answered).
  vm_compute; reflexivity.
Defined.

(** The three cases listed in the specification. *)
Lemma passed_examples rs :
  (correctCount rs = 36 -> pointsSum rs = 100 -> passed TEST rs = true)
  /\ (correctCount rs = 20 -> pointsSum rs = 125 -> passed TEST rs = true)
  /\ (correctCount rs = 20 -> pointsSum rs = 50 -> passed TEST rs = false).
Proof.
  repeat split; intros Hc Hp.
  - apply passed_iff. split; [reflexivity | lia].
  - apply passed_iff. split; [reflexivity | lia].
  - destruct (passed TEST rs) eqn:E; [| reflexivity].
    apply passed_iff in E. lia.
Qed.

Lemma firstn_snoc_exact {A} (n : nat) (prev : list A) (x : A) :
  length prev = n -> firstn n (prev ++ [x]) = prev.
Proof.
  intros <-. rewrite firstn_app, Nat.sub_diag, firstn_all.
  cbn [firstn]. apply app_nil_r.
Qed.

(** C5. Completing a session puts its entry at the head of the history
    and keeps at most 20 entries, the earlier ones in their order; when
    20 entries were stored before, the last of them, the oldest, is
    dropped, and it no longer occurs in the list unless its id is the id
    of an entry that is kept. *)
Theorem C5_history_capped :
  forall (cl : Timeout) (now : Z) (s : State),
    more_questions cl = false ->
    let s' := nextQuestion cl now s in
    (length (history s') <= 20)%nat
    /\ hd_error (history s') = Some (newEntry cl now)
    /\ history s' = newEntry cl now :: firstn 19 (history s)
    /\ forall prev oldest,
         history s = prev ++ [oldest] ->
         length prev = 19%nat ->
         history s' = newEntry cl now :: prev
         /\ (~ In (Entry.id oldest)
               (map Entry.id (newEntry cl now :: prev)) ->
             ~ In oldest (history s')).
Proof.
  intros cl now s Hlast s'. subst s'. rewrite (nextQuestion_last _ _ _ Hlast).
  simpl_state.
  split; [apply firstn_le_length |].
  split; [reflexivity |]. split; [reflexivity |].
  intros prev oldest Hprev Hlen. rewrite Hprev.
  change (firstn 20 (newEntry cl now :: prev ++ [oldest]))
    with (newEntry cl now :: firstn 19 (prev ++ [oldest])).
  rewrite (firstn_snoc_exact 19 prev oldest Hlen).
  split; [reflexivity |].
  intros Hid Hin. apply Hid. now apply in_map.
Qed.

Lemma more_questions_demo : more_questions demo_closure = false.
Proof. vm_compute; reflexivity. Qed.

Lemma C5_history_capped_witness :
  let s' := nextQuestion demo_closure 2000
              (setHistory demo_history demo_answered) in
  (length (history s') <= 20)%nat
  /\ hd_error (history s') = Some (newEntry demo_closure 2000)
  /\ ~ In (demo_entry 1) (history s').
Proof.
  pose proof (C5_history_capped demo_closure 2000
                (setHistory demo_history demo_answered) more_questions_demo)
    as (Hlen & Hhd & _ & Hold).
  split; [exact Hlen | split; [exact Hhd |]].
  apply (Hold (removelast demo_history) (demo_entry 1));
    [vm_compute; reflexivity | vm_compute; reflexivity |].
  vm_compute. intros H.
  repeat (destruct H as [H | H]; [discriminate H |]). exact H.
Defined.

(** ** The two pass expressions *)

Lemma isPassed_truthy pt rs : truthy (isPassed pt rs) = passed pt rs.
Proof.
  unfold isPassed, passed. destruct pt; cbn [PlayType_eqb andb truthy];
    [reflexivity |].
  destruct rs as [|r rs]; [reflexivity |].
  cbn [stats truthy stats_totalCorrect stats_totalPoints]. reflexivity.
Qed.

Lemma passed_by_totals pt rs rs' :
  correctCount rs = correctCount rs' -> pointsSum rs = pointsSum rs' ->
  passed pt rs = passed pt rs'.
Proof.
  intros Hc Hp. unfold passed.
  now rewrite !totalCorrect_count, !totalPoints_sum, Hc, Hp.
Qed.

Lemma newEntry_isPassed cl now :
  Entry.isPassed (newEntry cl now)
  = truthy (isPassed (cl_playType cl) (cl_results cl)).
Proof. now rewrite isPassed_truthy. Qed.

(** C10. The value stored in the history entry and the value the results
    screen branches on agree whenever they are computed for the same
    play type from Results with the same count of correct answers and
    the same sum of points; where the screen has no Results its
    expression is [null], which counts as false like the stored value. *)
Theorem C10_stored_and_shown_agree :
  forall (cl : Timeout) (now : Z) (shown : list Result),
    correctCount (cl_results cl) = correctCount shown ->
    pointsSum (cl_results cl) = pointsSum shown ->
    Entry.isPassed (newEntry cl now)
    = truthy (isPassed (cl_playType cl) shown).
Proof.
  intros cl now shown Hc Hp. rewrite isPassed_truthy.
  unfold newEntry. cbn [Entry.isPassed]. now apply passed_by_totals.
Qed.

Lemma C10_stored_and_shown_agree_witness :
  Entry.isPassed (newEntry demo_closure 2000)
  = truthy (isPassed (cl_playType demo_closure) []).
Proof.
  apply (C10_stored_and_shown_agree demo_closure 2000 []);
    vm_compute; reflexivity.
Defined.

(** At the end of a session that was not left, the results screen shows
    what the new history entry stores. *)
Lemma completion_shows_stored now s :
  session_inv s -> mode s = PLAYING -> showFeedback s = true ->
  currentIndex s = 39%nat ->
  let s' := fire 0 now s in
  mode s' = RESULTS
  /\ exists e,
       hd_error (history s') = Some e
       /\ Entry.isPassed e = truthy (isPassed (playType s') (results s')).
Proof.
  intros (Hlen & Hinv) Hmode Hfb Hidx s'. subst s'.
  rewrite Hmode, Hfb in Hinv. destruct Hinv as (_ & _ & d & Hp).
  unfold fire. rewrite Hp. cbn [nth_error].
  rewrite nextQuestion_last
    by (unfold more_questions; cbn [cl_currentIndex cl_questions];
        rewrite Hlen, Hidx; reflexivity).
  simpl_state. split; [reflexivity |]. eexists. split; [reflexivity |].
  apply newEntry_isPassed.
Qed.

(** ** Starting a session *)

Lemma fire_mode k now s :
  mode (fire k now s) = mode s \/ mode (fire k now s) = RESULTS.
Proof.
  unfold fire. destruct (nth_error (pending s) k) as [cl |]; [| now left].
  unfold nextQuestion. destruct (more_questions cl); simpl_state; auto.
Qed.

Lemma handleAnswer_mode val now s s' :
  handleAnswer val now s = Ok s' -> mode s' = mode s.
Proof.
  unfold handleAnswer. destruct (showFeedback s).
  - now intros [= <-].
  - destruct (nth_error (questions s) (currentIndex s)); [| discriminate].
    now intros [= <-].
Qed.

Lemma tick_mode now s s' : tick now s = Ok s' -> mode s' = mode s.
Proof.
  unfold tick. destruct (timer_running s); [| now intros [= <-]].
  destruct (Qle_bool (timeLeft s) (1 # 10)); [| now intros [= <-]].
  destruct (handleAnswer JNull now s) as [s1 |] eqn:E; [| discriminate].
  intros [= <-]. simpl_state. eapply handleAnswer_mode, E.
Qed.

(** C6. With no table selected the start button does nothing: the state
    stays as it is, nothing is thrown, and no event whatever leads from
    there to the question screen. *)
Theorem C6_start_needs_tables :
  forall (rnd : nat -> Draw) (now : Z) (s : State),
    selectedTables s = [] ->
    clickStart rnd now s = s
    /\ step (ClickStart rnd now) s = Ok s
    /\ forall e s', step e s = Ok s' -> mode s <> PLAYING ->
                    mode s' <> PLAYING.
Proof.
  intros rnd now s Hsel.
  assert (Hclick : forall rnd' now', clickStart rnd' now' s = s).
  { intros. unfold clickStart. now rewrite Hsel. }
  split; [apply Hclick | split].
  - unfold step. rewrite Hclick. now destruct (mode s).
  - intros e s' Hstep Hmode.
    destruct e; unfold step in Hstep;
      try (destruct (mode s) eqn:Em; try congruence;
           injection Hstep as <-; unfold toggleTable; simpl_state;
           rewrite ?Hclick; congruence).
    + apply tick_mode in Hstep. congruence.
    + assert (Hs' : s' = fire k now0 s)
        by (destruct (mode s); congruence).
      subst s'. destruct (fire_mode k now0 s) as [E | E]; congruence.
Qed.

Lemma C6_start_needs_tables_witness :
  let s := setMode PRACTICE_SETUP (initial []) in
  clickStart demo_draws 1000 s = s
  /\ step (ClickStart demo_draws 1000) s = Ok s
  /\ forall e s', step e s = Ok s' -> mode s <> PLAYING ->
                  mode s' <> PLAYING.
Proof.
  apply (C6_start_needs_tables demo_draws 1000
           (setMode PRACTICE_SETUP (initial []))).
  vm_compute; reflexivity.
Defined.

(** ** The session invariant *)

Lemma handleAnswer_cases val now s s' :
  handleAnswer val now s = Ok s' ->
  (showFeedback s = true /\ s' = s)
  \/ (showFeedback s = false
      /\ exists q d,
           nth_error (questions s) (currentIndex s) = Some q
           /\ results s' = results s ++ [result_of q val now s]
           /\ pending s' =
                pending s ++
                  [mkTimeout d (currentIndex s) (questions s) (playType s)
                     (results s')]
           /\ showFeedback s' = true
           /\ mode s' = mode s /\ playType s' = playType s
           /\ questions s' = questions s /\ currentIndex s' = currentIndex s
           /\ history s' = history s /\ selectedTables s' = selectedTables s).
Proof.
  intros H. destruct (showFeedback s) eqn:Hfb.
  - left. rewrite (handleAnswer_feedback _ _ _ Hfb) in H.
    injection H as <-. now split.
  - right. split; [reflexivity |].
    destruct (nth_error (questions s) (currentIndex s)) as [q |] eqn:Hq.
    + destruct (handleAnswer_fresh val now s q Hfb Hq)
        as (s1 & Hs1 & Hres & Hpend & Hshow & _ & Hrest).
      rewrite Hs1 in H. injection H as <-.
      exists q, (if strict_eq val (answer q) then 800 else 2000).
      rewrite Hres at 2. auto.
    + unfold handleAnswer in H. rewrite Hfb, Hq in H. discriminate.
Qed.

Lemma session_inv_start type tables rnd now s0 :
  pending s0 = [] -> session_inv (startSession type tables rnd now s0).
Proof.
  intros Hp. unfold session_inv. rewrite startSession_questions.
  split; [apply generateQuestions_length |].
  unfold startSession. simpl_state. rewrite Hp. repeat split. lia.
Qed.

Lemma session_inv_handleAnswer val now s s' :
  session_inv s -> mode s = PLAYING ->
  handleAnswer val now s = Ok s' -> session_inv s'.
Proof.
  intros Hinv Hmode H.
  destruct (handleAnswer_cases _ _ _ _ H)
    as [[_ ->] | (Hfb & q & d & Hq & Hres & Hpend & Hshow & Hm & Hpt
                    & Hqs & Hidx & _)]; [assumption |].
  unfold session_inv in *. rewrite Hmode, Hfb in Hinv.
  destruct Hinv as (Hlen & Hlt & Hrl & Hp0).
  rewrite Hm, Hmode, Hshow, Hqs, Hidx, Hpt.
  split; [assumption | split; [assumption | split]].
  - rewrite Hres, length_app. cbn [length]. lia.
  - exists d. rewrite Hpend, Hp0. reflexivity.
Qed.

Lemma session_inv_setUserInput text s :
  session_inv s -> session_inv (setUserInput text s).
Proof. intros H. exact H. Qed.

Lemma session_inv_setTimeLeft t s :
  session_inv s -> session_inv (setTimeLeft t s).
Proof. intros H. exact H. Qed.

Lemma session_inv_fire k now s :
  session_inv s -> session_inv (fire k now s).
Proof.
  intros Hinv. unfold fire.
  destruct (nth_error (pending s) k) as [cl |] eqn:Hk; [| assumption].
  unfold session_inv in Hinv. destruct Hinv as (Hlen & Hinv).
  destruct (mode s) eqn:Hmode; try contradiction.
  - destruct Hinv as (Hlt & Hinv).
    destruct (showFeedback s) eqn:Hfb.
    + destruct Hinv as (Hrl & d & Hp). rewrite Hp in Hk.
      destruct k as [|k]; [| now destruct k].
      injection Hk as <-.
      unfold nextQuestion, more_questions. cbn [cl_currentIndex cl_questions].
      rewrite Hlen.
      destruct (Z.ltb_spec (Z.of_nat (currentIndex s)) (Z.of_nat 40 - 1))
        as [Hmore | Hlast]; unfold session_inv; simpl_state.
      * rewrite Hmode, Hp. cbn [remove_nth firstn skipn app].
        repeat split; [assumption | lia | assumption].
      * rewrite Hp. split; [assumption | reflexivity].
    + destruct Hinv as (_ & Hp). rewrite Hp in Hk. now destruct k.
  - rewrite Hinv in Hk. now destruct k.
Qed.

Lemma session_inv_step e s s' :
  in_session e -> session_inv s -> step e s = Ok s' -> session_inv s'.
Proof.
  intros He Hinv Hstep. destruct He; unfold step in Hstep.
  - destruct (mode s); injection Hstep as <-; assumption.
  - destruct (mode s) eqn:Hmode; try (injection Hstep as <-; assumption).
    unfold submitAnswer in Hstep.
    destruct (nth_error (questions s) (currentIndex s));
      [| injection Hstep as <-; assumption].
    eapply session_inv_handleAnswer; eassumption.
  - assert (Ht : tick now s = Ok s') by (destruct (mode s); assumption).
    clear Hstep. unfold tick in Ht.
    destruct (timer_running s) eqn:Hrun; [| injection Ht as <-; assumption].
    assert (Hmode : mode s = PLAYING).
    { unfold timer_running in Hrun. destruct (mode s); try discriminate.
      reflexivity. }
    destruct (Qle_bool (timeLeft s) (1 # 10)).
    + destruct (handleAnswer JNull now s) as [s1 |] eqn:E; [| discriminate].
      injection Ht as <-. apply session_inv_setTimeLeft.
      eapply session_inv_handleAnswer; eassumption.
    + injection Ht as <-. now apply session_inv_setTimeLeft.
  - assert (Hs' : s' = fire k now s) by (destruct (mode s); congruence).
    subst s'. now apply session_inv_fire.
Qed.

Lemma session_inv_run es : forall s s',
  Forall in_session es -> session_inv s -> run es s = Ok s' ->
  session_inv s'.
Proof.
  induction es as [|e es IH]; intros s s' Hes Hinv Hrun; cbn [run] in Hrun.
  - now injection Hrun as <-.
  - inversion Hes as [|? ? He Hes']; subst.
    destruct (step e s) as [s1 |] eqn:Hstep; [| discriminate].
    eapply IH; [eassumption | | eassumption].
    eapply session_inv_step; eassumption.
Qed.

(** A session in this shape never throws. *)
Lemma session_step_ok e s :
  in_session e -> session_inv s -> exists s', step e s = Ok s'.
Proof.
  intros He Hinv. destruct (step e s) as [s' |] eqn:Hstep; [eauto |].
  exfalso. unfold session_inv in Hinv. destruct Hinv as (Hlen & Hinv).
  assert (Hthrow : forall val now,
             mode s = PLAYING -> handleAnswer val now s <> TypeError).
  { intros val now Hmode. unfold handleAnswer. rewrite Hmode in Hinv.
    destruct (showFeedback s); [discriminate |].
    destruct (nth_error (questions s) (currentIndex s)) eqn:Hq;
      [discriminate |].
    apply nth_error_None in Hq. lia. }
  destruct He; unfold step in Hstep.
  - destruct (mode s); discriminate.
  - destruct (mode s) eqn:Hmode; try discriminate.
    unfold submitAnswer in Hstep.
    destruct (nth_error (questions s) (currentIndex s)); [| discriminate].
    now apply (Hthrow val now).
  - assert (Ht : tick now s = TypeError) by (destruct (mode s); assumption).
    unfold tick in Ht.
    destruct (timer_running s) eqn:Hrun; [| discriminate].
    destruct (Qle_bool (timeLeft s) (1 # 10)); [| discriminate].
    destruct (handleAnswer JNull now s) eqn:E; [discriminate |].
    apply (Hthrow JNull now); [| assumption].
    unfold timer_running in Hrun. now destruct (mode s).
  - destruct (mode s); discriminate.
Qed.

(** ** Forty questions on the question screen, whatever happened before *)

Lemma handleAnswer_questions val now s s' :
  handleAnswer val now s = Ok s' ->
  mode s' = mode s /\ questions s' = questions s.
Proof.
  intros H. destruct (handleAnswer_cases _ _ _ _ H)
    as [[_ ->] | (_ & q & d & _ & _ & _ & _ & Hm & _ & Hqs & _)]; auto.
Qed.

Lemma tick_questions now s s' :
  tick now s = Ok s' -> mode s' = mode s /\ questions s' = questions s.
Proof.
  unfold tick. destruct (timer_running s); [| intros [= <-]; auto].
  destruct (Qle_bool (timeLeft s) (1 # 10)); [| intros [= <-]; auto].
  destruct (handleAnswer JNull now s) as [s1 |] eqn:E; [| discriminate].
  intros [= <-]. simpl_state. eapply handleAnswer_questions, E.
Qed.

Lemma fire_questions k now s : questions (fire k now s) = questions s.
Proof.
  unfold fire. destruct (nth_error (pending s) k) as [cl |]; [| reflexivity].
  unfold nextQuestion. now destruct (more_questions cl).
Qed.

Lemma playing_has_40_step e s s' :
  playing_has_40 s -> step e s = Ok s' -> playing_has_40 s'.
Proof.
  unfold playing_has_40. intros Hs Hstep Hmode'.
  destruct e; unfold step in Hstep.
  - destruct (mode s) eqn:Hm; injection Hstep as <-; simpl_state;
      try congruence; auto.
  - destruct (mode s) eqn:Hm; injection Hstep as <-;
      unfold toggleTable in *; simpl_state; try congruence; auto.
  - destruct (mode s) eqn:Hm; injection Hstep as <-; simpl_state;
      try congruence; auto.
  - destruct (mode s) eqn:Hm; injection Hstep as <-; simpl_state;
      try congruence; auto.
    unfold clickStart in *.
    destruct (length (selectedTables s) =? 0)%nat; [congruence |].
    rewrite startSession_questions. apply generateQuestions_length.
  - destruct (mode s) eqn:Hm; injection Hstep as <-; simpl_state;
      try congruence; auto.
  - destruct (mode s) eqn:Hm; try (injection Hstep as <-; congruence || now auto).
    unfold submitAnswer in Hstep.
    destruct (nth_error (questions s) (currentIndex s));
      [| injection Hstep as <-; now auto].
    apply handleAnswer_questions in Hstep. destruct Hstep as [_ ->]. auto.
  - assert (Hs' : s' = setMode MENU s) by (destruct (mode s); congruence).
    subst s'. discriminate.
  - destruct (mode s) eqn:Hm; injection Hstep as <-; simpl_state;
      try congruence; auto.
  - assert (Ht : tick now s = Ok s') by (destruct (mode s); assumption).
    apply tick_questions in Ht. destruct Ht as [Hm ->]. apply Hs. congruence.
  - assert (Hs' : s' = fire k now s) by (destruct (mode s); congruence).
    subst s'. rewrite fire_questions.
    destruct (fire_mode k now s) as [E | E]; [| congruence].
    apply Hs. congruence.
Qed.

Lemma playing_has_40_run es : forall s s',
  playing_has_40 s -> run es s = Ok s' -> playing_has_40 s'.
Proof.
  induction es as [|e es IH]; intros s s' Hs Hrun; cbn [run] in Hrun.
  - now injection Hrun as <-.
  - destruct (step e s) as [s1 |] eqn:Hstep; [| discriminate].
    eapply IH; [| eassumption]. eapply playing_has_40_step; eassumption.
Qed.

(** C8, as amended.  On the question screen there are always forty
    questions, in either play type and after any sequence of events since
    the first render.  In a session started while no feedback delay of an
    earlier session was outstanding and not left since, the number of
    Results equals the index while a question awaits its answer and
    exceeds it by one during the feedback interval. *)
Theorem C8_results_follow_index :
  (forall (saved : list HistoryEntry) (es : list Event) (s : State),
      run es (initial saved) = Ok s ->
      mode s = PLAYING ->
      length (questions s) = 40%nat)
  /\ (forall (type : PlayType) (tables : list Z) (rnd : nat -> Draw)
             (now : Z) (s0 : State) (es : list Event) (s : State),
         pending s0 = [] ->
         Forall in_session es ->
         run es (startSession type tables rnd now s0) = Ok s ->
         mode s = PLAYING ->
         length (results s) = (currentIndex s + feedback_offset s)%nat).
Proof.
  split.
  - intros saved es s Hrun Hmode.
    refine (playing_has_40_run es (initial saved) s _ Hrun Hmode).
    unfold playing_has_40. discriminate.
  - intros type tables rnd now s0 es s Hp Hes Hrun Hmode.
    pose proof (session_inv_run es _ _ Hes
                  (session_inv_start type tables rnd now s0 Hp) Hrun) as Hinv.
    unfold session_inv in Hinv. rewrite Hmode in Hinv.
    destruct Hinv as (_ & _ & Hinv).
    unfold feedback_offset. destruct (showFeedback s).
    + destruct Hinv as [-> _]. lia.
    + destruct Hinv as [-> _]. lia.
Qed.

Lemma C8_results_follow_index_witness :
  length (questions demo_answered) = 40%nat
  /\ length (results demo_answered)
     = (currentIndex demo_answered + feedback_offset demo_answered)%nat.
Proof.
  split.
  - apply (proj1 C8_results_follow_index [] (demo_start ++ demo_answer)
             demo_answered); vm_compute; reflexivity.
  - apply (proj2 C8_results_follow_index TEST [3; 7] demo_draws 1000
             demo_setup demo_answer demo_answered).
    + vm_compute; reflexivity.
    + repeat constructor.
    + vm_compute; reflexivity.
    + vm_compute; reflexivity.
Defined.

(** C8 as the specification states it fails: after the first answer of
    the sample session the question screen shows its feedback with one
    Result at index 0. *)
Lemma C8_counterexample :
  ~ (forall (es : list Event) (s : State),
        run es (initial []) = Ok s ->
        mode s = PLAYING ->
        length (results s) = currentIndex s).
Proof.
  intros H.
  specialize (H (demo_start ++ demo_answer) demo_answered).
  assert (Hrun : run (demo_start ++ demo_answer) (initial [])
                 = Ok demo_answered) by (vm_compute; reflexivity).
  assert (Hmode : mode demo_answered = PLAYING) by (vm_compute; reflexivity).
  specialize (H Hrun Hmode). vm_compute in H. discriminate H.
Qed.

(** ** Leaving the question screen *)

(** Away from the question screen the countdown is not armed. *)
Lemma tick_outside_playing now s : mode s <> PLAYING -> tick now s = Ok s.
Proof.
  intros Hmode. unfold tick, timer_running.
  destruct (mode s); try reflexivity. congruence.
Qed.

(** C9 at its failing input.  The sample session is left for the menu
    while a feedback delay is outstanding; the timeout is still there and
    when it runs out it advances the index of the discarded session, or,
    after the last question, replaces the menu by the results screen and
    writes a history entry. *)
Theorem C9_stale_feedback_delay :
  (exists s1 s2,
      run demo_left_early (initial []) = Ok s1
      /\ mode s1 = MENU /\ currentIndex s1 = 0%nat
      /\ length (pending s1) = 1%nat
      /\ step (Fire 0 3500) s1 = Ok s2
      /\ mode s2 = MENU /\ currentIndex s2 = 1%nat
      /\ showFeedback s2 = false /\ results s2 = results s1)
  /\ (exists s1 s2,
         run demo_left_late (initial []) = Ok s1
         /\ mode s1 = MENU /\ history s1 = []
         /\ length (pending s1) = 1%nat
         /\ step (Fire 0 3000) s1 = Ok s2
         /\ mode s2 = RESULTS /\ length (history s2) = 1%nat
         /\ results s2 = results s1).
Proof.
  split.
  - exists (after demo_left_early (initial [])),
      (after (demo_left_early ++ [Fire 0 3500]) (initial [])).
    vm_compute. repeat split.
  - exists (after demo_left_late (initial [])),
      (after (demo_left_late ++ [Fire 0 3000]) (initial [])).
    vm_compute. repeat split.
Qed.

(** [startSession] itself has no guard: called on an empty selection it
    would enter the question screen with forty questions whose table is
    [undefined] and whose answer is [NaN].  Only the disabled button
    keeps this from happening. *)
Lemma startSession_unguarded type rnd now s :
  let s' := startSession type [] rnd now s in
  mode s' = PLAYING
  /\ length (questions s') = 40%nat
  /\ Forall (fun q => table q = JUndefined /\ answer q = JNaN) (questions s').
Proof.
  cbv zeta. rewrite startSession_questions.
  split; [reflexivity | split; [apply generateQuestions_length |]].
  apply Forall_forall. intros q Hin. unfold generateQuestions in Hin.
  apply generate_loop_In in Hin. destruct Hin as [[] | (j & _ & ->)].
  unfold question_at, js_index. cbn [length Z.of_nat table answer].
  destruct (floor_scaled (rnd (2 * j)%nat) 0 <? 0); [now split |].
  destruct (Z.to_nat (floor_scaled (rnd (2 * j)%nat) 0)); now split.
Qed.

(** ** The sample session run to its end *)

(** Forty correct answers given at once: the results screen is reached,
    nothing is outstanding, and the one history entry records 40 of 40
    with 240 points as passed. *)
Lemma demo_full_run :
  exists s,
    run (demo_start ++ rounds 40) (initial []) = Ok s
    /\ mode s = RESULTS /\ pending s = []
    /\ length (results s) = 40%nat
    /\ map (fun e => (Entry.type e, Entry.score e, Entry.total e,
                      Entry.points e, Entry.isPassed e)) (history s)
       = [(TEST, 40, 40, 240, true)].
Proof.
  exists (after (demo_start ++ rounds 40) (initial [])).
  vm_compute. repeat split.
Qed.

(** The points of a correct answer second by second. *)
Lemma speed_points_table :
  map (fun ms => speed_points (ms # 1000))
      [0; 1; 999; 1000; 1001; 2500; 4999; 5000; 5999; 6000; 6001; 60000]
  = [6; 6; 6; 5; 5; 4; 2; 1; 1; 1; 1; 1].
Proof. vm_compute. reflexivity. Qed.

(** * Further properties *)

(** ** The shape of one step *)

Lemma handleAnswer_explicit val now s q :
  showFeedback s = false ->
  nth_error (questions s) (currentIndex s) = Some q ->
  handleAnswer val now s = Ok (answered q val now s).
Proof.
  intros Hfb Hq. unfold handleAnswer. now rewrite Hfb, Hq.
Qed.

Lemma handleAnswer_shape val now s s' :
  handleAnswer val now s = Ok s' ->
  s' = s
  \/ exists q,
       showFeedback s = false
       /\ nth_error (questions s) (currentIndex s) = Some q
       /\ s' = answered q val now s.
Proof.
  intros H. destruct (showFeedback s) eqn:Hfb.
  - left. rewrite handleAnswer_feedback in H by assumption. congruence.
  - destruct (nth_error (questions s) (currentIndex s)) as [q |] eqn:Hq.
    + right. exists q. rewrite (handleAnswer_explicit _ _ _ _ Hfb Hq) in H.
      repeat split; congruence.
    + unfold handleAnswer in H. rewrite Hfb, Hq in H. discriminate.
Qed.

Lemma tick_shape now s s' :
  tick now s = Ok s' ->
  s' = s
  \/ (timer_running s = true /\ Qle_bool (timeLeft s) (1 # 10) = false
      /\ s' = setTimeLeft (timeLeft s - (1 # 10)) s)
  \/ (timer_running s = true /\ Qle_bool (timeLeft s) (1 # 10) = true
      /\ exists q,
           nth_error (questions s) (currentIndex s) = Some q
           /\ s' = setTimeLeft 0 (answered q JNull now s)).
Proof.
  unfold tick. destruct (timer_running s) eqn:Hrun; [| left; congruence].
  destruct (Qle_bool (timeLeft s) (1 # 10)) eqn:Hle.
  - destruct (handleAnswer JNull now s) as [s1 |] eqn:E; [| discriminate].
    intros [= <-]. right. right. repeat split.
    destruct (handleAnswer_shape _ _ _ _ E) as [-> | (q & Hfb & Hq & ->)].
    + exfalso. unfold timer_running in Hrun.
      unfold handleAnswer in E.
      destruct (showFeedback s) eqn:Hfb;
        [rewrite andb_false_r in Hrun; discriminate |].
      destruct (nth_error (questions s) (currentIndex s)) as [q |] eqn:Hq;
        [| discriminate].
      injection E as E. apply (f_equal showFeedback) in E.
      simpl_state. congruence.
    + exists q. now split.
  - intros [= <-]. right. left. now repeat split.
Qed.

(** Every step is one of ten moves. *)
Lemma step_shape e s s' :
  step e s = Ok s' ->
  s' = s
  \/ (exists t, e = ChooseType t /\ mode s = MENU
                /\ s' = setMode PRACTICE_SETUP (setPlayType t s))
  \/ (e = ClearHistory /\ mode s = MENU /\ s' = setHistory [] s)
  \/ (exists t, e = ToggleTable t /\ mode s = PRACTICE_SETUP
                /\ s' = toggleTable t s)
  \/ ((e = GoMenu \/ e = CancelSetup /\ mode s = PRACTICE_SETUP)
      /\ s' = setMode MENU s)
  \/ (exists rnd now,
        e = ClickStart rnd now
        /\ mode s = PRACTICE_SETUP /\ selectedTables s <> []
        /\ s' = startSession (playType s) (selectedTables s) rnd now s)
  \/ (exists text, e = Typed text /\ mode s = PLAYING
                   /\ s' = setUserInput text s)
  \/ (exists val now, e = Submit val now /\ mode s = PLAYING
                      /\ handleAnswer val now s = Ok s')
  \/ (exists now, e = Tick now /\ tick now s = Ok s')
  \/ (exists k now, e = Fire k now /\ s' = fire k now s).
Proof.
  intros H. destruct e; unfold step in H.
  - destruct (mode s) eqn:Hm; injection H as <-; auto.
    right. left. eauto.
  - destruct (mode s) eqn:Hm; injection H as <-; auto.
    do 3 right. left. eauto.
  - destruct (mode s) eqn:Hm; injection H as <-; auto.
    do 4 right. left. auto.
  - destruct (mode s) eqn:Hm; injection H as <-; auto.
    unfold clickStart.
    destruct (selectedTables s) as [|t l] eqn:Hsel; [now left |].
    cbn [length Nat.eqb]. do 5 right. left. exists rnd, now.
    repeat split; congruence.
  - destruct (mode s) eqn:Hm; injection H as <-; auto.
    do 6 right. left. eauto.
  - destruct (mode s) eqn:Hm; try (injection H as <-; now auto).
    unfold submitAnswer in H.
    destruct (nth_error (questions s) (currentIndex s));
      [| injection H as <-; now auto].
    do 7 right. left. eauto.
  - do 4 right. left. split; [now left | destruct (mode s); congruence].
  - destruct (mode s) eqn:Hm; injection H as <-; auto 6.
  - do 8 right. left. exists now. split; [reflexivity |].
    destruct (mode s); assumption.
  - do 9 right. exists k, now. split; [reflexivity |].
    destruct (mode s); congruence.
Qed.

Lemma fire_shape k now s :
  fire k now s = s
  \/ exists cl,
       nth_error (pending s) k = Some cl
       /\ ((more_questions cl = true
            /\ fire k now s =
               resetQuestionState now
                 (setCurrentIndex (S (currentIndex s))
                    (setPending (remove_nth k (pending s)) s)))
           \/ (more_questions cl = false
               /\ fire k now s =
                  setHistory (firstn 20 (newEntry cl now :: history s))
                    (setMode RESULTS
                       (setPending (remove_nth k (pending s)) s)))).
Proof.
  unfold fire. destruct (nth_error (pending s) k) as [cl |]; [| now left].
  right. exists cl. split; [reflexivity |]. unfold nextQuestion.
  destruct (more_questions cl); [left | right]; now split.
Qed.

Lemma run_invariant_on (E : Event -> Prop) (P : State -> Prop) :
  (forall e s s', E e -> P s -> step e s = Ok s' -> P s') ->
  forall es s s', Forall E es -> P s -> run es s = Ok s' -> P s'.
Proof.
  intros Hstep. induction es as [|e es IH]; intros s s' Hes Hs Hrun;
    cbn [run] in Hrun.
  - now injection Hrun as <-.
  - inversion Hes as [|? ? He Hes']; subst.
    destruct (step e s) as [s1 |] eqn:E1; [| discriminate].
    eapply IH; [eassumption | | eassumption]. eapply Hstep; eassumption.
Qed.

Lemma run_invariant (P : State -> Prop) :
  (forall e s s', P s -> step e s = Ok s' -> P s') ->
  forall es s s', P s -> run es s = Ok s' -> P s'.
Proof.
  intros Hstep es s s' Hs Hrun.
  assert (Hes : Forall (fun _ : Event => True) es)
    by (clear; induction es; constructor; auto).
  refine (run_invariant_on (fun _ => True) P _ es s s' Hes Hs Hrun).
  intros e s1 s2 _. apply Hstep.
Qed.

Lemma run_app es1 : forall es2 s,
  run (es1 ++ es2) s =
  match run es1 s with
  | Ok s1 => run es2 s1
  | TypeError => TypeError
  end.
Proof.
  induction es1 as [|e es1 IH]; intros es2 s; cbn [run app]; [reflexivity |].
  destruct (step e s); [apply IH | reflexivity].
Qed.

Ltac step_fields :=
  unfold answered, toggleTable, startSession; simpl_state.

(** ** The history *)

Lemma history_step e s s' :
  step e s = Ok s' ->
  history s' = history s
  \/ (e = ClearHistory /\ history s' = [])
  \/ (exists k now cl,
        e = Fire k now /\ nth_error (pending s) k = Some cl
        /\ more_questions cl = false
        /\ history s' = firstn 20 (newEntry cl now :: history s)).
Proof.
  intros H. apply step_shape in H.
  destruct H as [-> | [(t & _ & _ & ->) | [(-> & _ & ->) | [(t & _ & _ & ->)
    | [(_ & ->) | [(rnd & now & _ & _ & _ & ->) | [(text & _ & _ & ->)
    | [(val & now & _ & _ & H) | [(now & _ & H) | (k & now & -> & ->)]]]]]]]]];
    try (left; reflexivity).
  - right. left. now split.
  - left. destruct (handleAnswer_shape _ _ _ _ H) as [-> | (q & _ & _ & ->)];
      reflexivity.
  - left. destruct (tick_shape _ _ _ H)
      as [-> | [(_ & _ & ->) | (_ & _ & q & _ & ->)]]; reflexivity.
  - destruct (fire_shape k now s) as [-> | (cl & Hk & [[_ ->] | [Hlast ->]])].
    + now left.
    + now left.
    + right. right. exists k, now, cl. repeat split; assumption.
Qed.

(** X1. The stored history changes in two ways only: the clear button of the
    menu empties it, and a feedback delay that ends a session puts the
    new entry in front and cuts the list to 20.  Going back to the menu,
    starting a session or answering leave it alone. *)
Theorem history_cleared_or_prepended :
  forall (e : Event) (s s' : State),
    step e s = Ok s' ->
    history s' = history s
    \/ (e = ClearHistory /\ history s' = [])
    \/ (exists k now cl,
          e = Fire k now /\ nth_error (pending s) k = Some cl
          /\ more_questions cl = false
          /\ history s' = firstn 20 (newEntry cl now :: history s)).
Proof. exact history_step. Qed.

Lemma history_cleared_or_prepended_witness :
  history (setMode MENU demo_answered) = history demo_answered
  \/ (GoMenu = ClearHistory /\ history (setMode MENU demo_answered) = [])
  \/ (exists k now cl,
        GoMenu = Fire k now /\ nth_error (pending demo_answered) k = Some cl
        /\ more_questions cl = false
        /\ history (setMode MENU demo_answered)
           = firstn 20 (newEntry cl now :: history demo_answered)).
Proof.
  apply (history_cleared_or_prepended GoMenu demo_answered
           (setMode MENU demo_answered)).
  vm_compute; reflexivity.
Defined.

(** X2. However long the application runs, the history never holds more than
    20 entries, or, when more than 20 were read from storage at start-up,
    never more than were read. *)
Theorem history_bounded :
  forall (saved : list HistoryEntry) (es : list Event) (s : State),
    run es (initial saved) = Ok s ->
    (length (history s) <= Nat.max 20 (length saved))%nat.
Proof.
  intros saved es s Hrun.
  refine (run_invariant
            (fun s => (length (history s) <= Nat.max 20 (length saved))%nat)
            _ es (initial saved) s _ Hrun).
  - intros e s1 s2 Hs1 Hstep.
    destruct (history_step _ _ _ Hstep)
      as [-> | [(_ & ->) | (k & now & cl & _ & _ & _ & ->)]].
    + assumption.
    + cbn [length]. lia.
    + pose proof (firstn_le_length 20 (newEntry cl now :: history s1)). lia.
  - cbn [initial history]. lia.
Qed.

Lemma history_bounded_witness :
  (length (history demo_answered) <= Nat.max 20 (length (@nil HistoryEntry)))%nat.
Proof.
  apply (history_bounded [] (demo_start ++ demo_answer) demo_answered).
  vm_compute; reflexivity.
Defined.

(** ** The countdown value *)

(** X3. The remaining time shown by the timer bar always lies between 0 and
    the 6 seconds of [MAX_TIME_PER_QUESTION], whatever events occur. *)
Theorem timeLeft_in_range :
  forall (saved : list HistoryEntry) (es : list Event) (s : State),
    run es (initial saved) = Ok s ->
    (0 <= timeLeft s <= inject_Z MAX_TIME_PER_QUESTION)%Q.
Proof.
  intros saved es s Hrun.
  refine (run_invariant
            (fun s => (0 <= timeLeft s <= inject_Z MAX_TIME_PER_QUESTION)%Q)
            _ es (initial saved) s _ Hrun);
    [| cbn [initial timeLeft]; split; [discriminate | apply Qle_refl]].
  clear. intros e s s' Hs H. apply step_shape in H.
  assert (H6 : (0 <= inject_Z MAX_TIME_PER_QUESTION
                <= inject_Z MAX_TIME_PER_QUESTION)%Q)
    by (split; [discriminate | apply Qle_refl]).
  destruct H as [-> | [(t & _ & _ & ->) | [(_ & _ & ->) | [(t & _ & _ & ->)
    | [(_ & ->) | [(rnd & now & _ & _ & _ & ->) | [(text & _ & _ & ->)
    | [(val & now & _ & _ & H) | [(now & _ & H) | (k & now & _ & ->)]]]]]]]]];
    try exact Hs; try exact H6.
  - destruct (handleAnswer_shape _ _ _ _ H) as [-> | (q & _ & _ & ->)];
      exact Hs.
  - destruct (tick_shape _ _ _ H)
      as [-> | [(_ & Hgt & ->) | (_ & _ & q & _ & ->)]].
    + exact Hs.
    + simpl_state.
      assert (Hlt : ~ (timeLeft s <= 1 # 10)%Q).
      { intros Hle. apply Qle_bool_iff in Hle. congruence. }
      unfold MAX_TIME_PER_QUESTION in *. split; lra.
    + simpl_state. split; [apply Qle_refl | discriminate].
  - destruct (fire_shape k now s) as [-> | (cl & _ & [[_ ->] | [_ ->]])];
      [exact Hs | exact H6 | exact Hs].
Qed.

Lemma timeLeft_in_range_witness :
  (0 <= timeLeft demo_answered <= inject_Z MAX_TIME_PER_QUESTION)%Q.
Proof.
  apply (timeLeft_in_range [] (demo_start ++ demo_answer) demo_answered).
  vm_compute; reflexivity.
Defined.

(** ** The mode *)

Lemma screen_step_live e s : screen_step e s s = step e s.
Proof.
  destruct e; unfold screen_step, step, clickStart, submitAnswer,
    handleAnswer_of, handleAnswer; destruct (mode s); reflexivity.
Qed.

Lemma handleAnswer_of_mode c val now s s' :
  handleAnswer_of c val now s = Ok s' -> mode s' = mode s.
Proof.
  unfold handleAnswer_of. destruct (showFeedback c).
  - now intros [= <-].
  - destruct (nth_error (questions c) (currentIndex c)); [| discriminate].
    now intros [= <-].
Qed.

(** X4. The mode changes in four ways only, each by its own control: a
    button of a menu screen opens the table selection and records the
    play type; the start button of a selection screen on which a table
    was selected opens the question screen, with questions from that
    selection; the logo, the results button or the cancel button of a
    selection screen leads to the menu; the end of a feedback delay leads
    to the results screen.  The screen [c] of the control is the current
    one or the one being left, still mounted for its exit animation with
    its last render, so a start button can still open the question screen
    after the selection was cancelled; the delay leads to the results
    from whatever screen is shown. *)
Theorem mode_transitions :
  forall (e : Event) (c s s' : State),
    screen_step e c s = Ok s' ->
    mode s' = mode s
    \/ (mode c = MENU /\ mode s' = PRACTICE_SETUP
        /\ exists t, e = ChooseType t /\ playType s' = t)
    \/ (mode c = PRACTICE_SETUP /\ mode s' = PLAYING
        /\ selectedTables c <> []
        /\ exists rnd now,
             e = ClickStart rnd now
             /\ questions s'
                = generateQuestions (playType c) (selectedTables c) rnd)
    \/ (mode s' = MENU
        /\ (e = GoMenu \/ e = CancelSetup /\ mode c = PRACTICE_SETUP))
    \/ (mode s' = RESULTS /\ exists k now, e = Fire k now).
Proof.
  intros e c s s' H. destruct e; unfold screen_step in H.
  - destruct (mode c) eqn:Hc; injection H as <-; try (now left).
    right. left. repeat split. eauto.
  - destruct (mode c) eqn:Hc; injection H as <-; now left.
  - destruct (mode c) eqn:Hc; injection H as <-; try (now left).
    do 3 right. left. split; [reflexivity | right; now split].
  - destruct (mode c) eqn:Hc; injection H as <-; try (now left).
    destruct (selectedTables c) as [|t l] eqn:Hsel; cbn [length Nat.eqb];
      [now left |].
    do 2 right. left. repeat split; [discriminate |].
    exists rnd, now. split; reflexivity.
  - destruct (mode c) eqn:Hc; injection H as <-; now left.
  - destruct (mode c) eqn:Hc; try (injection H as <-; now left).
    destruct (nth_error (questions c) (currentIndex c));
      [| injection H as <-; now left].
    left. eapply handleAnswer_of_mode, H.
  - assert (Hs' : s' = setMode MENU s) by (destruct (mode c); congruence).
    subst s'. do 3 right. left. split; [reflexivity | now left].
  - destruct (mode c) eqn:Hc; injection H as <-; now left.
  - assert (Ht : tick now s = Ok s') by (destruct (mode c); assumption).
    left. eapply tick_mode, Ht.
  - assert (Hs' : s' = fire k now s) by (destruct (mode c); congruence).
    subst s'. destruct (fire_mode k now s) as [E | E]; [now left |].
    do 4 right. split; eauto.
Qed.

(** The start button of the cancelled selection screen of the sample
    session, pressed while that screen is being left: the question screen
    opens from the menu. *)
Lemma mode_transitions_witness :
  mode demo_cancelled = MENU
  /\ mode demo_setup = PRACTICE_SETUP
  /\ mode (startSession TEST [3; 7] demo_draws 1000 demo_cancelled) = PLAYING
  /\ selectedTables demo_setup <> []
  /\ questions (startSession TEST [3; 7] demo_draws 1000 demo_cancelled)
     = generateQuestions (playType demo_setup) (selectedTables demo_setup)
         demo_draws.
Proof.
  destruct (mode_transitions (ClickStart demo_draws 1000) demo_setup
              demo_cancelled
              (startSession TEST [3; 7] demo_draws 1000 demo_cancelled))
    as [H | [(H & _) | [(_ & _ & Hsel & rnd & now & He & Hq)
       | [(H & _) | (H & _)]]]];
    [vm_compute; reflexivity | | | | |];
    try (vm_compute in H; discriminate H).
  injection He as <- <-.
  split; [reflexivity | split; [reflexivity | split; [reflexivity |]]].
  split; [exact Hsel | exact Hq].
Defined.

(** The OK key of the question screen of the sample session, pressed
    while that screen is being left for the menu: a Result is appended
    and a feedback delay started although the menu is the current
    mode. *)
Lemma left_screen_appends_result :
  exists s',
    screen_step (Submit (JNum 42) 1500) demo_session demo_left_unanswered
    = Ok s'
    /\ mode s' = MENU /\ results demo_left_unanswered = []
    /\ length (results s') = 1%nat /\ length (pending s') = 1%nat
    /\ step (Submit (JNum 42) 1500) demo_left_unanswered
       = Ok demo_left_unanswered.
Proof.
  eexists. split; [vm_compute; reflexivity |].
  vm_compute. repeat split.
Qed.

(** ** The table selection *)

Lemma includes_In t l : existsb (Z.eqb t) l = true <-> In t l.
Proof.
  rewrite existsb_exists. split.
  - intros (x & Hx & E). apply Z.eqb_eq in E. now subst.
  - intros H. exists t. split; [assumption | apply Z.eqb_refl].
Qed.

Lemma without_In t x l :
  In x (filter (fun y => negb (y =? t)) l) <-> x <> t /\ In x l.
Proof.
  rewrite filter_In, negb_true_iff, Z.eqb_neq. tauto.
Qed.

Lemma toggleTable_In t x s :
  In x (selectedTables (toggleTable t s)) <->
  (x = t /\ ~ In t (selectedTables s)) \/ (x <> t /\ In x (selectedTables s)).
Proof.
  unfold toggleTable. simpl_state.
  destruct (existsb (Z.eqb t) (selectedTables s)) eqn:E.
  - apply includes_In in E. rewrite without_In. tauto.
  - assert (Hn : ~ In t (selectedTables s))
      by (rewrite <- includes_In; congruence).
    rewrite in_app_iff. cbn [In].
    destruct (Z.eq_dec x t) as [-> | Hne]; [intuition congruence |].
    split; [intros [H | [H | []]]; [tauto | congruence] | tauto].
Qed.

Lemma toggleTable_NoDup t s :
  NoDup (selectedTables s) -> NoDup (selectedTables (toggleTable t s)).
Proof.
  intros Hnd. unfold toggleTable. simpl_state.
  destruct (existsb (Z.eqb t) (selectedTables s)) eqn:E.
  - now apply NoDup_filter.
  - assert (Hn : ~ In t (selectedTables s))
      by (rewrite <- includes_In; congruence).
    apply NoDup_app; [assumption | | ].
    + constructor; [intros [] | constructor].
    + intros x Hx [<- | []]. contradiction.
Qed.

(** X5. Pressing a table button flips that table and no other: afterwards
    the table is selected exactly if it was not before, and every other
    table is selected exactly if it was. *)
Theorem toggleTable_flips_one :
  forall (t x : Z) (s : State),
    In x (selectedTables (toggleTable t s)) <->
    (if x =? t then ~ In t (selectedTables s) else In x (selectedTables s)).
Proof.
  intros t x s. rewrite toggleTable_In.
  destruct (Z.eqb_spec x t) as [-> | Hne]; intuition congruence.
Qed.

(** X6. Pressing the same table button twice gives back the same set of
    tables; the list itself comes back unchanged when the table was not
    selected, and with the table moved to the end when it was. *)
Theorem toggleTable_twice :
  forall (t : Z) (s : State),
    let twice := selectedTables (toggleTable t (toggleTable t s)) in
    (forall x, In x twice <-> In x (selectedTables s))
    /\ (~ In t (selectedTables s) -> twice = selectedTables s)
    /\ (In t (selectedTables s) ->
        twice = filter (fun y => negb (y =? t)) (selectedTables s) ++ [t]).
Proof.
  intros t s twice. subst twice. split; [| split].
  - intros x. rewrite !toggleTable_In.
    destruct (in_dec Z.eq_dec t (selectedTables s));
      destruct (Z.eq_dec x t) as [-> | Hne]; intuition congruence.
  - intros Hn. unfold toggleTable. simpl_state.
    assert (E : existsb (Z.eqb t) (selectedTables s) = false).
    { destruct (existsb (Z.eqb t) (selectedTables s)) eqn:E; [| reflexivity].
      apply includes_In in E. contradiction. }
    rewrite E.
    assert (E' : existsb (Z.eqb t) (selectedTables s ++ [t]) = true)
      by (apply includes_In, in_app_iff; right; now left).
    rewrite E'. rewrite filter_app. cbn [filter]. rewrite Z.eqb_refl.
    cbn [negb]. rewrite app_nil_r.
    clear E E'. induction (selectedTables s) as [|y l IH]; [reflexivity |].
    cbn [filter]. destruct (Z.eqb_spec y t) as [-> | Hne].
    + exfalso. apply Hn. now left.
    + cbn [negb]. f_equal. apply IH. intros H. apply Hn. now right.
  - intros Hin. unfold toggleTable. simpl_state.
    assert (E : existsb (Z.eqb t) (selectedTables s) = true)
      by now apply includes_In.
    rewrite E.
    destruct (existsb (Z.eqb t)
                (filter (fun y => negb (y =? t)) (selectedTables s))) eqn:E';
      [| reflexivity].
    apply includes_In, without_In in E'. tauto.
Qed.

Lemma toggleTable_twice_witness :
  let twice := selectedTables (toggleTable 3 (toggleTable 3 demo_setup)) in
  twice = [7; 3].
Proof.
  pose proof (toggleTable_twice 3 demo_setup) as (_ & _ & H).
  cbv zeta. rewrite H; [vm_compute; reflexivity |].
  vm_compute. now left.
Defined.

Lemma questions_of_buttons type tables rnd :
  tables <> [] -> (forall k, unit_draw (rnd k)) ->
  Forall (fun t => 1 <= t <= 10) tables ->
  Forall question_in_range (generateQuestions type tables rnd).
Proof.
  intros Hne Hrnd Htab.
  pose proof (generateQuestions_ok type tables rnd Hne Hrnd) as Hok.
  rewrite Forall_forall in *. intros q Hq.
  destruct (Hok q Hq) as (t & Hin & Ht & Ha & Hb & Hans).
  pose proof (Htab t Hin). exists t. repeat split; try assumption; lia.
Qed.

(** X7. With the ten table buttons and a random source of the unit interval,
    in every state that can be reached the selection lists each table at
    most once and only tables 1 to 10, and every question has a table
    from 1 to 10 as first factor, a second factor from 1 to 10 and their
    product, a number from 1 to 100, as answer. *)
Theorem selection_and_questions_in_range :
  forall (saved : list HistoryEntry) (es : list Event) (s : State),
    Forall ui_event es ->
    run es (initial saved) = Ok s ->
    NoDup (selectedTables s)
    /\ Forall (fun t => 1 <= t <= 10) (selectedTables s)
    /\ Forall question_in_range (questions s)
    /\ Forall (fun q => exists p, answer q = JNum p /\ 1 <= p <= 100)
         (questions s).
Proof.
  intros saved es s Hes Hrun.
  assert (Hinv : NoDup (selectedTables s)
                 /\ Forall (fun t => 1 <= t <= 10) (selectedTables s)
                 /\ Forall question_in_range (questions s)).
  { refine (run_invariant_on ui_event
              (fun s => NoDup (selectedTables s)
                        /\ Forall (fun t => 1 <= t <= 10) (selectedTables s)
                        /\ Forall question_in_range (questions s))
              _ es (initial saved) s Hes _ Hrun);
      [| cbn [initial selectedTables questions];
         repeat split; constructor].
    clear. intros e s s' He (Hnd & Hsel & Hqs) H. apply step_shape in H.
    destruct H as [-> | [(t & _ & _ & ->) | [(_ & _ & ->)
      | [(t & -> & _ & ->)
      | [(_ & ->) | [(rnd & now & -> & _ & Hne & ->) | [(text & _ & _ & ->)
      | [(val & now & _ & _ & H) | [(now & _ & H) | (k & now & _ & ->)]]]]]]]]];
      try (repeat split; assumption).
    - split; [now apply toggleTable_NoDup | split; [| assumption]].
      apply Forall_forall. intros x Hx. apply toggleTable_In in Hx.
      rewrite Forall_forall in Hsel.
      destruct Hx as [[-> _] | [_ Hx]]; [exact He | now apply Hsel].
    - split; [assumption | split; [assumption |]].
      rewrite startSession_questions. now apply questions_of_buttons.
    - destruct (handleAnswer_shape _ _ _ _ H) as [-> | (q & _ & _ & ->)];
        repeat split; assumption.
    - destruct (tick_shape _ _ _ H)
        as [-> | [(_ & _ & ->) | (_ & _ & q & _ & ->)]];
        repeat split; assumption.
    - destruct (fire_shape k now s) as [-> | (cl & _ & [[_ ->] | [_ ->]])];
        repeat split; assumption. }
  destruct Hinv as (Hnd & Hsel & Hqs). repeat split; try assumption.
  eapply Forall_impl; [| exact Hqs].
  intros q (t & Ht & Hb & _ & _ & Hans). exists (t * b q). split; [assumption | nia].
Qed.

Lemma selection_and_questions_in_range_witness :
  NoDup (selectedTables demo_answered)
  /\ Forall (fun t => 1 <= t <= 10) (selectedTables demo_answered)
  /\ Forall question_in_range (questions demo_answered)
  /\ Forall (fun q => exists p, answer q = JNum p /\ 1 <= p <= 100)
       (questions demo_answered).
Proof.
  apply (selection_and_questions_in_range [] (demo_start ++ demo_answer)
           demo_answered).
  - repeat constructor; cbn; lia.
  - vm_compute; reflexivity.
Defined.

(** ** Results of a session that is not left *)


Lemma speed_points_positive t : 1 <= speed_points t.
Proof. unfold speed_points. apply Z.le_max_l. Qed.






(** ** A session from start to end *)

Lemma step_fire k now s : step (Fire k now) s = Ok (fire k now s).
Proof. unfold step. now destruct (mode s). Qed.

Lemma step_submit val now s q :
  mode s = PLAYING -> showFeedback s = false ->
  nth_error (questions s) (currentIndex s) = Some q ->
  step (Submit val now) s = Ok (answered q val now s).
Proof.
  intros Hm Hfb Hq. unfold step, submitAnswer. rewrite Hm, Hq.
  now apply handleAnswer_explicit.
Qed.

Lemma round_events_in_session ans : Forall in_session (round_events ans).
Proof. destruct ans as [[val t1] t2]. repeat constructor. Qed.

(** One question answered and its feedback delay run out. *)
Lemma round_step val t1 t2 s :
  session_inv s -> mode s = PLAYING -> showFeedback s = false ->
  exists s' r,
    run (round_events (val, t1, t2)) s = Ok s'
    /\ results s' = results s ++ [r] /\ userAnswer r = val
    /\ questions s' = questions s /\ playType s' = playType s
    /\ ((currentIndex s < 39)%nat /\ mode s' = PLAYING
        /\ showFeedback s' = false
        /\ currentIndex s' = S (currentIndex s)
        /\ history s' = history s
        \/ currentIndex s = 39%nat /\ mode s' = RESULTS /\ pending s' = []
           /\ exists cl,
                cl_playType cl = playType s /\ cl_results cl = results s'
                /\ cl_questions cl = questions s
                /\ history s' = firstn 20 (newEntry cl t2 :: history s)).
Proof.
  intros (Hlen & Hinv) Hm Hfb. rewrite Hm, Hfb in Hinv.
  destruct Hinv as (Hlt & _ & Hp).
  destruct (nth_error (questions s) (currentIndex s)) as [q |] eqn:Hq;
    [| apply nth_error_None in Hq; lia].
  cbn [round_events run]. rewrite (step_submit _ _ _ _ Hm Hfb Hq).
  rewrite step_fire. unfold fire, answered at 1 2. simpl_state.
  rewrite Hp. cbn [app nth_error remove_nth firstn skipn].
  unfold nextQuestion, more_questions. cbn [cl_currentIndex cl_questions].
  rewrite Hlen.
  destruct (Z.ltb_spec (Z.of_nat (currentIndex s)) (Z.of_nat 40 - 1))
    as [Hmore | Hlast].
  - eexists. exists (result_of q val t1 s). split; [reflexivity |].
    unfold answered. simpl_state. repeat split. left.
    repeat split; try assumption. lia.
  - eexists. exists (result_of q val t1 s). split; [reflexivity |].
    unfold answered. simpl_state. repeat split. right.
    split; [lia |]. split; [reflexivity |]. split; [reflexivity |].
    exists (mkTimeout
              (if isCorrect (result_of q val t1 s) then 800 else 2000)
              (currentIndex s) (questions s) (playType s)
              (results s ++ [result_of q val t1 s])).
    repeat split.
Qed.

Lemma rounds_complete : forall answers s,
  session_inv s -> mode s = PLAYING -> showFeedback s = false ->
  (currentIndex s + length answers = 40)%nat ->
  exists s' cl t2,
    run (flat_map round_events answers) s = Ok s'
    /\ mode s' = RESULTS /\ pending s' = []
    /\ map userAnswer (results s')
       = map userAnswer (results s) ++ map (fun a => fst (fst a)) answers
    /\ questions s' = questions s
    /\ cl_playType cl = playType s /\ cl_results cl = results s'
    /\ cl_questions cl = questions s
    /\ history s' = firstn 20 (newEntry cl t2 :: history s).
Proof.
  induction answers as [|[[val t1] t2] answers IH];
    intros s Hinv Hm Hfb Hcount.
  - exfalso. destruct Hinv as (_ & Hinv). rewrite Hm in Hinv.
    cbn [length] in Hcount. lia.
  - destruct (round_step val t1 t2 s Hinv Hm Hfb)
      as (s1 & r & Hrun & Hres & Hval & Hqs & Hpt
            & [(Hlt & Hm1 & Hfb1 & Hidx & Hhist)
              | (Hidx & Hm1 & Hp1 & cl & Hcl1 & Hcl2 & Hcl3 & Hhist)]).
    + assert (Hinv1 : session_inv s1)
        by (eapply session_inv_run;
            [apply (round_events_in_session (val, t1, t2)) | exact Hinv
            | exact Hrun]).
      destruct (IH s1 Hinv1 Hm1 Hfb1) as (s' & cl & t & Hrun' & Hrest).
      { cbn [length] in Hcount. lia. }
      exists s', cl, t. cbn [flat_map]. rewrite run_app, Hrun.
      split; [exact Hrun' |].
      destruct Hrest as (Hm' & Hp' & Hua & Hqs' & Hc1 & Hc2 & Hc3 & Hh).
      repeat split; try congruence.
      rewrite Hua, Hres, map_app. cbn [map fst]. rewrite Hval.
      now rewrite <- app_assoc.
    + assert (answers = []) by (destruct answers; [reflexivity |];
                                cbn [length] in Hcount; lia).
      subst answers. exists s1, cl, t2. cbn [flat_map]. rewrite app_nil_r.
      repeat split; try assumption.
      rewrite Hres, map_app. cbn [map fst]. now rewrite Hval.
Qed.

(** X9. Forty answers, each followed by the end of its feedback delay, take
    a session from its start to the results screen, whatever the answers
    are and in either play type: the Results hold the forty submitted
    values in order, no timeout is left outstanding, and one entry is put
    in front of the history with the play type, 40 as total, the count of
    correct Results, the sum of their points and the pass mark. *)
Theorem forty_answers_complete :
  forall (type : PlayType) (tables : list Z) (rnd : nat -> Draw) (now : Z)
         (s0 : State) (answers : list (jsval * Z * Z)),
    pending s0 = [] ->
    length answers = 40%nat ->
    exists s e,
      run (flat_map round_events answers)
          (startSession type tables rnd now s0) = Ok s
      /\ mode s = RESULTS /\ pending s = []
      /\ map userAnswer (results s) = map (fun a => fst (fst a)) answers
      /\ history s = firstn 20 (e :: history s0)
      /\ Entry.type e = type /\ Entry.total e = 40
      /\ Entry.score e = correctCount (results s)
      /\ Entry.points e = pointsSum (results s)
      /\ Entry.isPassed e = passed type (results s).
Proof.
  intros type tables rnd now s0 answers Hp Hlen.
  destruct (rounds_complete answers (startSession type tables rnd now s0))
    as (s & cl & t2 & Hrun & Hm & Hpend & Hua & Hqs & Hc1 & Hc2 & Hc3 & Hh).
  - now apply session_inv_start.
  - reflexivity.
  - reflexivity.
  - unfold startSession. simpl_state. lia.
  - exists s, (newEntry cl t2). split; [exact Hrun |].
    split; [exact Hm | split; [exact Hpend |]].
    split; [exact Hua |]. split; [exact Hh |].
    unfold newEntry.
    cbn [Entry.type Entry.total Entry.score Entry.points Entry.isPassed].
    rewrite Hc1, Hc2, Hc3, totalCorrect_count, totalPoints_sum.
    rewrite startSession_questions, generateQuestions_length.
    repeat split; reflexivity.
Qed.

Lemma forty_answers_complete_witness :
  exists s e,
    run (flat_map round_events demo_answers)
        (startSession PRACTICE [3; 7] demo_draws 1000 demo_setup) = Ok s
    /\ mode s = RESULTS /\ pending s = []
    /\ map userAnswer (results s) = map (fun a => fst (fst a)) demo_answers
    /\ history s = firstn 20 (e :: history demo_setup)
    /\ Entry.type e = PRACTICE /\ Entry.total e = 40
    /\ Entry.score e = correctCount (results s)
    /\ Entry.points e = pointsSum (results s)
    /\ Entry.isPassed e = passed PRACTICE (results s).
Proof.
  apply (forty_answers_complete PRACTICE [3; 7] demo_draws 1000 demo_setup
           demo_answers); vm_compute; reflexivity.
Defined.

(** ** The countdown of a Test question *)

Lemma step_tick now s : step (Tick now) s = tick now s.
Proof. unfold step. now destruct (mode s). Qed.








(** X11. Where the countdown is not armed, in a Practice session, during
    feedback or away from the question screen, no number of runs of the
    interval callback changes anything: Practice questions never time
    out. *)
Theorem ticks_without_countdown :
  forall (times : list Z) (s : State),
    playType s = PRACTICE \/ showFeedback s = true \/ mode s <> PLAYING ->
    run (map Tick times) s = Ok s.
Proof.
  intros times s H.
  assert (Hrun : timer_running s = false).
  { unfold timer_running. destruct H as [-> | [-> | H]].
    - apply andb_false_r.
    - cbn [negb]. now rewrite andb_false_r.
    - destruct (mode s); try reflexivity. congruence. }
  induction times as [|now times IH]; cbn [map run]; [reflexivity |].
  rewrite step_tick. unfold tick at 1. now rewrite Hrun.
Qed.

Lemma ticks_without_countdown_witness :
  run (map Tick demo_ticks)
      (startSession PRACTICE [3; 7] demo_draws 1000 demo_setup)
  = Ok (startSession PRACTICE [3; 7] demo_draws 1000 demo_setup).
Proof.
  apply (ticks_without_countdown demo_ticks
           (startSession PRACTICE [3; 7] demo_draws 1000 demo_setup)).
  left. reflexivity.
Defined.

(** ** The answer controls *)

Section AnswerControlsFacts.

Variable parseInt : String.string -> jsval.

Lemma auto_submit text now s s' :
  (if showFeedback s then Ok s
   else
     match nth_error (questions s) (currentIndex s) with
     | None => Ok s
     | Some currentQ =>
         if strict_eq (parseInt text) (answer currentQ)
         then handleAnswer (parseInt text) now (setUserInput text s)
         else Ok (setUserInput text s)
     end) = Ok s' ->
  userInput s' = (if showFeedback s then userInput s
                  else match nth_error (questions s) (currentIndex s) with
                       | None => userInput s
                       | Some _ => text
                       end)
  /\ (results s' = results s
      \/ exists r,
           results s' = results s ++ [r]
           /\ userAnswer r = parseInt text
           /\ isCorrect r = true /\ 1 <= points r
           /\ feedbackType s' = Some correct).
Proof.
  destruct (showFeedback s) eqn:Hfb; [intros [= <-]; auto |].
  destruct (nth_error (questions s) (currentIndex s)) as [q |] eqn:Hq;
    [| intros [= <-]; auto].
  destruct (strict_eq (parseInt text) (answer q)) eqn:E;
    [| intros [= <-]; auto].
  rewrite (handleAnswer_explicit _ now (setUserInput text s) q)
    by assumption.
  intros [= <-]. unfold answered, result_of. simpl_state.
  cbn [isCorrect]. rewrite ?E. split; [reflexivity |]. right.
  eexists. split; [reflexivity |]. cbn [userAnswer isCorrect points].
  rewrite ?E. repeat split. apply speed_points_positive.
Qed.

Lemma onChange_unfold text now s :
  onChange parseInt text now s =
  if showFeedback s then Ok s
  else
    match nth_error (questions s) (currentIndex s) with
    | None => Ok s
    | Some currentQ =>
        if strict_eq (parseInt text) (answer currentQ)
        then handleAnswer (parseInt text) now (setUserInput text s)
        else Ok (setUserInput text s)
    end.
Proof.
  unfold onChange.
  destruct (nth_error (questions s) (currentIndex s)),
    (showFeedback s); reflexivity.
Qed.

Lemma onDigit_unfold num now s :
  onDigit parseInt num now s =
  let text := String.append (userInput s) (digits num) in
  if showFeedback s then Ok s
  else
    match nth_error (questions s) (currentIndex s) with
    | None => Ok s
    | Some currentQ =>
        if strict_eq (parseInt text) (answer currentQ)
        then handleAnswer (parseInt text) now (setUserInput text s)
        else Ok (setUserInput text s)
    end.
Proof.
  unfold onDigit. cbv zeta.
  destruct (nth_error (questions s) (currentIndex s)),
    (showFeedback s); reflexivity.
Qed.

End AnswerControlsFacts.

(** X12. Typing, in the text field or on the number pad, never records a
    wrong answer: it either only changes the text, or, when the text
    parses to the product, appends a Result that is correct, carries
    that parsed value and earns at least one point.  During feedback it
    does nothing. *)
Theorem typing_submits_only_correct :
  forall (parseInt : String.string -> jsval) (text : String.string)
         (num : nat) (now : Z) (s s' : State),
    onChange parseInt text now s = Ok s'
    \/ onDigit parseInt num now s = Ok s'
       /\ text = String.append (userInput s) (digits num) ->
    (showFeedback s = true -> s' = s)
    /\ (results s' = results s
        \/ exists r,
             results s' = results s ++ [r]
             /\ userAnswer r = parseInt text
             /\ isCorrect r = true /\ 1 <= points r
             /\ feedbackType s' = Some correct).
Proof.
  intros parseInt text num now s s' H.
  assert (H' : (if showFeedback s then Ok s
                else
                  match nth_error (questions s) (currentIndex s) with
                  | None => Ok s
                  | Some currentQ =>
                      if strict_eq (parseInt text) (answer currentQ)
                      then handleAnswer (parseInt text) now
                             (setUserInput text s)
                      else Ok (setUserInput text s)
                  end) = Ok s').
  { destruct H as [H | [H ->]].
    - now rewrite onChange_unfold in H.
    - now rewrite onDigit_unfold in H. }
  split.
  - intros Hfb. rewrite Hfb in H'. congruence.
  - apply (auto_submit parseInt text now s s' H').
Qed.

Lemma typing_submits_only_correct_witness :
  (showFeedback demo_session = true ->
   after [Submit (JNum 42) 1500] (setUserInput demo_text demo_session)
   = demo_session)
  /\ (results (after [Submit (JNum 42) 1500]
                 (setUserInput demo_text demo_session))
      = results demo_session
      \/ exists r,
           results (after [Submit (JNum 42) 1500]
                      (setUserInput demo_text demo_session))
           = results demo_session ++ [r]
           /\ userAnswer r = demo_parseInt demo_text
           /\ isCorrect r = true /\ 1 <= points r
           /\ feedbackType (after [Submit (JNum 42) 1500]
                              (setUserInput demo_text demo_session))
              = Some correct).
Proof.
  apply (typing_submits_only_correct demo_parseInt demo_text 0 1500
           demo_session).
  left. vm_compute; reflexivity.
Defined.

(** X13. The OK key submits whatever the text parses to.  When that is [NaN],
    as for an empty field, the answer is recorded as wrong, not as a
    timeout: an incorrect Result without points, the "wrong" feedback and
    the long delay of 2000 ms.  The Enter key does the same as OK on a
    non-empty text and nothing on an empty one. *)
Theorem ok_key_records_unparsable_as_wrong :
  forall (parseInt : String.string -> jsval) (now : Z) (s : State)
         (q : Question),
    showFeedback s = false ->
    nth_error (questions s) (currentIndex s) = Some q ->
    (parseInt (userInput s) = JNaN ->
     exists s' r,
       onOk parseInt now s = Ok s'
       /\ results s' = results s ++ [r]
       /\ userAnswer r = JNaN /\ isCorrect r = false /\ points r = 0
       /\ feedbackType s' = Some wrong
       /\ map delay (pending s') = map delay (pending s) ++ [2000])
    /\ (userInput s = String.EmptyString -> onEnter parseInt now s = Ok s)
    /\ (userInput s <> String.EmptyString ->
        onEnter parseInt now s = onOk parseInt now s).
Proof.
  intros parseInt now s q Hfb Hq. split; [| split].
  - intros Hnan. unfold onOk. rewrite Hq, Hnan.
    rewrite (handleAnswer_explicit JNaN now s q Hfb Hq).
    eexists. exists (result_of q JNaN now s). split; [reflexivity |].
    unfold answered, result_of. simpl_state.
    cbn [isCorrect userAnswer points strict_eq].
    rewrite map_app. repeat split.
  - intros He. unfold onEnter. now rewrite Hq, Hfb, He.
  - intros Hne. unfold onEnter, onOk. rewrite Hq, Hfb.
    destruct (String.eqb_spec (userInput s) String.EmptyString);
      [contradiction | reflexivity].
Qed.

Lemma ok_key_records_unparsable_as_wrong_witness :
  exists s' r,
    onOk demo_parseInt 1500 demo_session = Ok s'
    /\ results s' = results demo_session ++ [r]
    /\ userAnswer r = JNaN /\ isCorrect r = false /\ points r = 0
    /\ feedbackType s' = Some wrong
    /\ map delay (pending s') = map delay (pending demo_session) ++ [2000].
Proof.
  apply (ok_key_records_unparsable_as_wrong demo_parseInt 1500 demo_session
           (mkQuestion (JNum 7) 6 (JNum 42) (JNum 7)));
    vm_compute; reflexivity.
Defined.

(** ** The points formula *)

Lemma speed_points_linear t :
  (inject_Z MAX_POINTS_PER_QUESTION
   * (1 - t / inject_Z MAX_TIME_PER_QUESTION) == 6 - t)%Q.
Proof. unfold MAX_POINTS_PER_QUESTION, MAX_TIME_PER_QUESTION. field. Qed.

Lemma Qceiling_le_Z (x : Q) (z : Z) : (x <= inject_Z z)%Q -> Qceiling x <= z.
Proof.
  intros H. pose proof (Qceiling_lt x) as Hlt.
  assert (Hz : (inject_Z (Qceiling x - 1) < inject_Z z)%Q)
    by (eapply Qlt_le_trans; eassumption).
  rewrite <- Zlt_Qlt in Hz. lia.
Qed.

Lemma Qceiling_gt_Z (x : Q) (z : Z) : (inject_Z z < x)%Q -> z < Qceiling x.
Proof.
  intros H. pose proof (Qle_ceiling x) as Hle.
  assert (Hz : (inject_Z z < inject_Z (Qceiling x))%Q)
    by (eapply Qlt_le_trans; eassumption).
  now rewrite <- Zlt_Qlt in Hz.
Qed.

(** X14. A correct answer earns between 1 and 6 points when the elapsed time
    is not negative, a slower answer never earns more than a faster one,
    and from 6 seconds on it earns exactly 1.  The formula has no upper
    clamp: a negative elapsed time, as after the clock was set back,
    earns more than 6. *)
Theorem speed_points_bounds :
  forall (t1 t2 : Q),
    (t1 <= t2)%Q ->
    speed_points t2 <= speed_points t1
    /\ 1 <= speed_points t2
    /\ ((0 <= t1)%Q -> speed_points t1 <= 6)
    /\ ((6 <= t2)%Q -> speed_points t2 = 1)
    /\ ((t1 < 0)%Q -> 6 < speed_points t1).
Proof.
  intros t1 t2 Hle. unfold speed_points.
  assert (E1 := Qceiling_comp _ _ (speed_points_linear t1)).
  assert (E2 := Qceiling_comp _ _ (speed_points_linear t2)).
  rewrite E1, E2.
  assert (Hmono : Qceiling (6 - t2) <= Qceiling (6 - t1)).
  { apply Qceiling_resp_le. lra. }
  split; [lia | split; [lia | split; [| split]]].
  - intros H0. assert (Qceiling (6 - t1) <= 6); [| lia].
    apply Qceiling_le_Z. change (inject_Z 6) with 6%Q. lra.
  - intros H6. assert (Qceiling (6 - t2) <= 0); [| lia].
    apply Qceiling_le_Z. change (inject_Z 0) with 0%Q. lra.
  - intros Hneg. assert (6 < Qceiling (6 - t1)); [| lia].
    apply Qceiling_gt_Z. change (inject_Z 6) with 6%Q. lra.
Qed.

Lemma speed_points_bounds_witness :
  speed_points (45 # 10) <= speed_points (12 # 10)
  /\ 1 <= speed_points (45 # 10)
  /\ ((0 <= 12 # 10)%Q -> speed_points (12 # 10) <= 6)
  /\ ((6 <= 45 # 10)%Q -> speed_points (45 # 10) = 1)
  /\ ((12 # 10 < 0)%Q -> 6 < speed_points (12 # 10)).
Proof.
  apply (speed_points_bounds (12 # 10) (45 # 10)). discriminate.
Defined.

(** ** Statistics *)

Lemma filter_split_length {A} (f : A -> bool) (l : list A) :
  (length (filter f l) + length (filter (fun x => negb (f x)) l)
   = length l)%nat.
Proof.
  induction l as [|x l IH]; [reflexivity |].
  cbn [filter]. destruct (f x); cbn [negb length]; lia.
Qed.

(** X15. The results screen has statistics exactly when there is at least one
    Result; then every Result is either counted as correct or listed
    among the wrong answers, and the listed ones are exactly the
    incorrect Results in their order. *)
Theorem stats_partition :
  forall (rs : list Result),
    (stats rs = None <-> rs = [])
    /\ forall st,
         stats rs = Some st ->
         stats_totalCorrect st + Z.of_nat (length (wrongAnswers st))
         = Z.of_nat (length rs)
         /\ 0 <= stats_totalCorrect st <= Z.of_nat (length rs)
         /\ stats_totalPoints st = pointsSum rs
         /\ wrongAnswers st = filter (fun r => negb (isCorrect r)) rs
         /\ (wrongAnswers st = [] <->
             stats_totalCorrect st = Z.of_nat (length rs)).
Proof.
  intros rs. split.
  - destruct rs; cbn [stats]; split; intros H; congruence.
  - intros st Hst.
    assert (E : st = mkStats (totalCorrect rs) (totalPoints rs)
                       (filter (fun r => negb (isCorrect r)) rs))
      by (destruct rs; cbn [stats] in Hst; congruence).
    subst st. cbn [stats_totalCorrect stats_totalPoints wrongAnswers].
    pose proof (filter_split_length isCorrect rs) as Hsplit.
    unfold totalCorrect.
    split; [lia | split; [lia | split; [apply totalPoints_sum | split]]];
      [reflexivity |].
    split.
    + intros Hnil. rewrite Hnil in Hsplit. cbn [length] in Hsplit. lia.
    + intros Hall. apply length_zero_iff_nil. lia.
Qed.

Lemma stats_partition_witness :
  match stats (results demo_answered) with
  | Some st =>
      stats_totalCorrect st + Z.of_nat (length (wrongAnswers st))
      = Z.of_nat (length (results demo_answered))
  | None => False
  end.
Proof.
  destruct (stats (results demo_answered)) as [st |] eqn:E.
  - apply (proj2 (stats_partition (results demo_answered)) st E).
  - apply (proj1 (stats_partition (results demo_answered))) in E.
    vm_compute in E. discriminate E.
Defined.

(** ** Tables that need practice *)

Lemma key_eqb_eq x y : key_eqb x y = true <-> x = y.
Proof.
  destruct x, y; cbn [key_eqb]; try (split; [discriminate | congruence]);
    try (split; reflexivity).
  rewrite Z.eqb_eq. split; congruence.
Qed.

Lemma key_eqb_refl x : key_eqb x x = true.
Proof. now apply key_eqb_eq. Qed.

Lemma key_eqb_neq x y : key_eqb x y = false <-> x <> y.
Proof.
  rewrite <- key_eqb_eq. destruct (key_eqb x y); split; congruence.
Qed.

(** What the object holds for table [t] after the Results [rs]. *)
Lemma bump_keys t ok obj :
  map fst (bump t ok obj) =
  if existsb (key_eqb t) (map fst obj) then map fst obj
  else map fst obj ++ [t].
Proof.
  induction obj as [|[k st] obj IH]; [reflexivity |].
  cbn [bump map fst existsb]. destruct (key_eqb t k); [reflexivity |].
  cbn [map fst orb]. rewrite IH.
  now destruct (existsb (key_eqb t) (map fst obj)).
Qed.

Lemma existsb_key t keys : existsb (key_eqb t) keys = true <-> In t keys.
Proof.
  rewrite existsb_exists. split.
  - intros (x & Hx & E). apply key_eqb_eq in E. now subst.
  - intros H. exists t. split; [assumption | apply key_eqb_refl].
Qed.

Lemma bump_NoDup t ok obj :
  NoDup (map fst obj) -> NoDup (map fst (bump t ok obj)).
Proof.
  intros Hnd. rewrite bump_keys.
  destruct (existsb (key_eqb t) (map fst obj)) eqn:E; [assumption |].
  assert (Hn : ~ In t (map fst obj))
    by (rewrite <- existsb_key; congruence).
  apply NoDup_app; [assumption | constructor; [intros [] | constructor] |].
  intros x Hx [<- | []]. contradiction.
Qed.

Lemma bump_other t ok obj k st :
  k <> t -> (In (k, st) (bump t ok obj) <-> In (k, st) obj).
Proof.
  intros Hne. induction obj as [|[k' st'] obj IH]; cbn [bump In].
  - split; [intros [H | []]; congruence | intros []].
  - destruct (key_eqb t k') eqn:E.
    + apply key_eqb_eq in E. subst k'. cbn [In].
      split; intros [H | H]; try (right; assumption); congruence.
    + cbn [In]. rewrite IH. reflexivity.
Qed.

Lemma bump_same t ok obj st :
  NoDup (map fst obj) ->
  (In (t, st) (bump t ok obj) <->
   (exists st0,
       In (t, st0) obj
       /\ st = mkTableStat (stat_correct st0 + (if ok then 1 else 0))
                 (stat_total st0 + 1))
   \/ (~ In t (map fst obj)
       /\ st = mkTableStat (if ok then 1 else 0) 1)).
Proof.
  induction obj as [|[k' st'] obj IH]; intros Hnd; cbn [bump In map fst].
  - split.
    + intros [H | []]. right. split; [tauto | congruence].
    + intros [(st0 & [] & _) | (_ & ->)]. now left.
  - inversion Hnd as [|? ? Hk' Hnd']; subst.
    destruct (key_eqb t k') eqn:E.
    + apply key_eqb_eq in E. subst k'. cbn [In]. split.
      * intros [H | H].
        -- left. exists st'. split; [now left | congruence].
        -- exfalso. apply Hk'. now apply (in_map fst) in H.
      * intros [(st0 & [H | H] & ->) | (Hn & _)].
        -- left. congruence.
        -- exfalso. apply Hk'. now apply (in_map fst) in H.
        -- exfalso. apply Hn. now left.
    + apply key_eqb_neq in E. cbn [In]. rewrite (IH Hnd'). split.
      * intros [H | [(st0 & H & ->) | (Hn & ->)]]; [congruence | |].
        -- left. exists st0. split; [now right | reflexivity].
        -- right. split; [| reflexivity]. intros [H | H]; congruence.
      * intros [(st0 & [H | H] & ->) | (Hn & ->)]; [congruence | |].
        -- right. left. eauto.
        -- right. right. split; [tauto | reflexivity].
Qed.

Lemma tableStats_snoc rs r :
  tableStats (rs ++ [r])
  = bump (table (question r)) (isCorrect r) (tableStats rs).
Proof. unfold tableStats. now rewrite fold_left_app. Qed.

Lemma on_table_snoc t rs r :
  on_table t (rs ++ [r])
  = on_table t rs ++ (if key_eqb (table (question r)) t then [r] else []).
Proof. unfold on_table. now rewrite filter_app. Qed.

Lemma table_total_snoc t rs r :
  table_total t (rs ++ [r])
  = table_total t rs + (if key_eqb (table (question r)) t then 1 else 0).
Proof.
  unfold table_total. rewrite on_table_snoc, length_app.
  destruct (key_eqb (table (question r)) t); cbn [length]; lia.
Qed.

Lemma table_correct_snoc t rs r :
  table_correct t (rs ++ [r])
  = table_correct t rs
    + (if key_eqb (table (question r)) t
       then if isCorrect r then 1 else 0 else 0).
Proof.
  unfold table_correct. rewrite on_table_snoc, filter_app, length_app.
  destruct (key_eqb (table (question r)) t); cbn [filter length]; [| lia].
  destruct (isCorrect r); cbn [length]; lia.
Qed.

Lemma table_total_nonneg t rs : 0 <= table_total t rs.
Proof. unfold table_total. lia. Qed.

Lemma tableStats_spec rs :
  NoDup (map fst (tableStats rs))
  /\ forall k st,
       In (k, st) (tableStats rs) <->
       0 < table_total k rs
       /\ st = mkTableStat (table_correct k rs) (table_total k rs).
Proof.
  induction rs as [|r rs (Hnd & IH)] using rev_ind.
  - split; [constructor |]. intros k st. cbn. split; [intros [] | lia].
  - rewrite tableStats_snoc. split; [now apply bump_NoDup |].
    intros k st. rewrite table_total_snoc, table_correct_snoc.
    pose proof (table_total_nonneg k rs) as Hnn.
    destruct (key_eqb (table (question r)) k) eqn:E.
    + apply key_eqb_eq in E. subst k.
      rewrite (bump_same _ _ _ _ Hnd). split.
      * intros [(st0 & Hin & ->) | (Hn & ->)].
        -- apply IH in Hin. destruct Hin as [Hpos ->].
           cbn [stat_correct stat_total]. split; [lia | reflexivity].
        -- assert (H0 : table_total (table (question r)) rs = 0).
           { destruct (Z.eq_dec (table_total (table (question r)) rs) 0)
               as [|Hne]; [assumption |].
             exfalso. apply Hn.
             apply (in_map fst
                      (tableStats rs)
                      (table (question r),
                       mkTableStat (table_correct (table (question r)) rs)
                         (table_total (table (question r)) rs))).
             apply IH. split; [lia | reflexivity]. }
           assert (Hc : table_correct (table (question r)) rs = 0).
           { unfold table_correct, table_total in *.
             pose proof (filter_split_length isCorrect
                           (on_table (table (question r)) rs)). lia. }
           rewrite H0, Hc. split; [lia | reflexivity].
      * intros [_ ->].
        destruct (Z.eq_dec (table_total (table (question r)) rs) 0)
          as [H0 | Hne].
        -- right. split.
           ++ intros Hin. apply in_map_iff in Hin.
              destruct Hin as ([k st] & Hk & Hin). cbn [fst] in Hk. subst k.
              apply IH in Hin. lia.
           ++ assert (Hc : table_correct (table (question r)) rs = 0).
              { unfold table_correct, table_total in *.
                pose proof (filter_split_length isCorrect
                              (on_table (table (question r)) rs)). lia. }
              now rewrite H0, Hc.
        -- left. eexists. split; [apply IH; split; [lia | reflexivity] |].
           reflexivity.
    + apply key_eqb_neq in E.
      rewrite bump_other by congruence. rewrite IH, !Z.add_0_r. reflexivity.
Qed.

Lemma insert_key_perm e l : Permutation (insert_key e l) (e :: l).
Proof.
  induction l as [|e' l IH]; cbn [insert_key]; [reflexivity |].
  destruct (key_number (fst e) <=? key_number (fst e')); [reflexivity |].
  rewrite IH. apply perm_swap.
Qed.

Lemma sort_keys_perm l : Permutation (sort_keys l) l.
Proof.
  induction l as [|e l IH]; cbn [sort_keys]; [reflexivity |].
  rewrite insert_key_perm. now constructor.
Qed.

Lemma filter_partition_perm {A} (f : A -> bool) (l : list A) :
  Permutation (filter f l ++ filter (fun x => negb (f x)) l) l.
Proof.
  induction l as [|x l IH]; [reflexivity |].
  cbn [filter]. destruct (f x); cbn [negb app].
  - now constructor.
  - rewrite <- Permutation_middle. now constructor.
Qed.

Lemma entries_perm obj : Permutation (entries obj) obj.
Proof.
  unfold entries. rewrite sort_keys_perm.
  apply (filter_partition_perm (fun e => integer_key (fst e))).
Qed.

Lemma below_80_spec st :
  0 < stat_total st ->
  (below_80 st = true <-> 5 * stat_correct st < 4 * stat_total st).
Proof.
  intros Hpos. unfold below_80.
  destruct (Z.eqb_spec (stat_total st) 0) as [H0 | _]; [lia |].
  rewrite negb_true_iff.
  destruct (stat_total st) as [|t|t] eqn:Et; try lia.
  assert (E : (inject_Z (stat_correct st) / inject_Z (Z.pos t)
               == stat_correct st # t)%Q)
    by (symmetry; apply Qmake_Qdiv).
  destruct (Qle_bool (8 # 10)
              (inject_Z (stat_correct st) / inject_Z (Z.pos t))) eqn:Hb.
  - apply Qle_bool_iff in Hb. rewrite E in Hb. unfold Qle in Hb.
    cbn [Qnum Qden] in Hb. split; [discriminate | lia].
  - split; [intros _ | reflexivity].
    assert (Hn : ~ (8 # 10 <= stat_correct st # t)%Q).
    { intros H. rewrite <- E in H. apply Qle_bool_iff in H. congruence. }
    unfold Qle in Hn. cbn [Qnum Qden] in Hn. lia.
Qed.

Lemma needsPractice_criterion_nodup rs : NoDup (needsPractice rs).
Proof.
  destruct (tableStats_spec rs) as (Hnd & _). unfold needsPractice.
  assert (Hnd' : NoDup (map fst (entries (tableStats rs)))).
  { eapply Permutation_NoDup; [| exact Hnd].
    apply Permutation_map. symmetry. apply entries_perm. }
  clear Hnd. induction (entries (tableStats rs)) as [|e l IH];
    [constructor |].
  cbn [map filter] in *. inversion Hnd' as [|? ? Hn Hl]; subst.
  destruct (below_80 (snd e)); [| now apply IH].
  cbn [map]. constructor; [| now apply IH].
  intros Hin. apply Hn. apply in_map_iff in Hin.
  destruct Hin as (x & <- & Hx). apply filter_In in Hx.
  apply in_map. tauto.
Qed.

(** X16. A table is listed as needing practice exactly when at least one
    Result is on it and fewer than four fifths of its Results are
    correct, so 4 of 5 is not listed and 3 of 5 is; no table is listed
    twice. *)
Theorem needsPractice_criterion :
  forall (rs : list Result),
    NoDup (needsPractice rs)
    /\ forall k,
         In k (needsPractice rs) <->
         0 < table_total k rs
         /\ 5 * table_correct k rs < 4 * table_total k rs.
Proof.
  intros rs. destruct (tableStats_spec rs) as (Hnd & Hspec).
  split; [apply needsPractice_criterion_nodup |]. unfold needsPractice.
  - intros k. rewrite in_map_iff. split.
    + intros ([k' st] & Hk & Hin). cbn [fst] in Hk. subst k'.
      apply filter_In in Hin. destruct Hin as [Hin Hb]. cbn [snd] in Hb.
      apply (Permutation_in _ (entries_perm _)) in Hin.
      apply Hspec in Hin. destruct Hin as [Hpos ->].
      apply below_80_spec in Hb; cbn [stat_correct stat_total] in *;
        [split |]; assumption.
    + intros [Hpos Hlow].
      exists (k, mkTableStat (table_correct k rs) (table_total k rs)).
      split; [reflexivity |]. apply filter_In. split.
      * apply (Permutation_in _ (Permutation_sym (entries_perm _))).
        apply Hspec. now split.
      * cbn [snd]. now apply below_80_spec.
Qed.

Lemma insert_key_sorted e l :
  StronglySorted (fun x y => key_le (fst x) (fst y)) l ->
  StronglySorted (fun x y => key_le (fst x) (fst y)) (insert_key e l).
Proof.
  induction 1 as [|e' l Hl IH Hall]; cbn [insert_key].
  - constructor; constructor.
  - destruct (Z.leb_spec (key_number (fst e)) (key_number (fst e')))
      as [Hle | Hgt].
    + constructor; [now constructor |].
      constructor; [exact Hle |].
      eapply Forall_impl; [| exact Hall].
      intros x Hx. unfold key_le in *. lia.
    + constructor; [exact IH |].
      eapply Permutation_Forall;
        [symmetry; apply insert_key_perm |].
      constructor; [unfold key_le; lia | exact Hall].
Qed.

Lemma sort_keys_sorted l :
  StronglySorted (fun x y => key_le (fst x) (fst y)) (sort_keys l).
Proof.
  induction l as [|e l IH]; cbn [sort_keys]; [constructor |].
  now apply insert_key_sorted.
Qed.

Lemma sorted_filter {A} (R : A -> A -> Prop) (f : A -> bool) l :
  StronglySorted R l -> StronglySorted R (filter f l).
Proof.
  induction 1 as [|x l Hl IH Hall]; cbn [filter]; [constructor |].
  destruct (f x); [| exact IH]. constructor; [exact IH |].
  apply Forall_forall. intros y Hy. apply filter_In in Hy.
  rewrite Forall_forall in Hall. now apply Hall.
Qed.

Lemma sorted_map_fst (l : list (jsval * TableStat)) :
  StronglySorted (fun x y => key_le (fst x) (fst y)) l ->
  StronglySorted key_le (map fst l).
Proof.
  induction 1 as [|x l Hl IH Hall]; cbn [map]; constructor;
    [exact IH |].
  apply Forall_forall. intros k Hk. apply in_map_iff in Hk.
  destruct Hk as (y & <- & Hy). rewrite Forall_forall in Hall.
  now apply Hall.
Qed.

Lemma sorted_strict (l : list jsval) :
  StronglySorted key_le l -> NoDup l ->
  Forall (fun k => integer_key k = true) l ->
  StronglySorted key_lt l.
Proof.
  induction 1 as [|x l Hl IH Hall]; intros Hnd Hint; [constructor |].
  inversion Hnd as [|? ? Hn Hnd']; subst.
  inversion Hint as [|? ? Hx Hint']; subst.
  constructor; [now apply IH |].
  rewrite Forall_forall in *. intros y Hy.
  pose proof (Hall y Hy) as Hle. pose proof (Hint' y Hy) as Hyi.
  assert (Hne : x <> y) by (intros ->; contradiction).
  unfold key_le, key_lt in *.
  destruct x, y; cbn [integer_key key_number] in *; try discriminate.
  assert (z <> z0) by congruence. lia.
Qed.

Lemma filter_all {A} (f : A -> bool) l :
  Forall (fun x => f x = true) l ->
  filter f l = l /\ filter (fun x => negb (f x)) l = [].
Proof.
  induction 1 as [|x l Hx _ [IH1 IH2]]; [now split |].
  cbn [filter]. rewrite Hx. cbn [negb]. now rewrite IH1, IH2.
Qed.

(** X17. When every Result is on a table whose number is an integer key, as
    the tables 1 to 10 are, the tables that need practice are listed in
    ascending order. *)
Theorem needsPractice_ascending :
  forall (rs : list Result),
    Forall (fun r => integer_key (table (question r)) = true) rs ->
    StronglySorted key_lt (needsPractice rs).
Proof.
  intros rs Hint.
  destruct (tableStats_spec rs) as (_ & Hspec).
  assert (Hkeys : Forall (fun e => integer_key (fst e) = true)
                    (tableStats rs)).
  { apply Forall_forall. intros [k st] Hin. cbn [fst].
    apply Hspec in Hin. destruct Hin as [Hpos _].
    unfold table_total, on_table in Hpos.
    destruct (filter (fun r => key_eqb (table (question r)) k) rs)
      as [|r l] eqn:E; [cbn in Hpos; lia |].
    assert (Hr : In r (filter (fun r => key_eqb (table (question r)) k) rs))
      by (rewrite E; now left).
    apply filter_In in Hr. destruct Hr as [Hr Hk].
    apply key_eqb_eq in Hk. subst k.
    rewrite Forall_forall in Hint. now apply Hint. }
  apply sorted_strict.
  - unfold needsPractice, entries.
    destruct (filter_all (fun e => integer_key (fst e)) _ Hkeys) as [-> ->].
    rewrite app_nil_r. apply sorted_map_fst, sorted_filter, sort_keys_sorted.
  - apply needsPractice_criterion_nodup.
  - apply Forall_forall. intros k Hk. unfold needsPractice in Hk.
    apply in_map_iff in Hk. destruct Hk as (e & <- & He).
    apply filter_In in He. destruct He as [He _].
    apply (Permutation_in _ (entries_perm _)) in He.
    rewrite Forall_forall in Hkeys. now apply Hkeys.
Qed.

Lemma needsPractice_ascending_witness :
  StronglySorted key_lt (needsPractice demo_mixed).
Proof.
  apply (needsPractice_ascending demo_mixed). repeat constructor.
Defined.

(** The sample Results: table 3 with 4 of 5 is not listed, the tables 7
    and 10 are, in ascending order although 10 came first. *)
Lemma needsPractice_demo : needsPractice demo_mixed = [JNum 7; JNum 10].
Proof. vm_compute. reflexivity. Qed.

(** ** Table colours *)

Lemma next_color_in_palette c :
  exists c', next_color c = Some c' /\ In c' COLOR_PALETTE.
Proof.
  destruct c as [y |]; [| vm_compute; eauto].
  unfold next_color, indexOf, COLOR_PALETTE. cbn [indexOf_from].
  repeat match goal with
         | |- context [String.eqb ?x y] =>
             destruct (String.eqb x y);
             [eexists; split; [vm_compute; reflexivity | cbn; tauto] |]
         end.
  eexists; split; [vm_compute; reflexivity | cbn; tauto].
Qed.

Lemma cycleTableColor_same t prev :
  cycleTableColor t prev t = next_color (prev t).
Proof. unfold cycleTableColor. now rewrite Z.eqb_refl. Qed.

Lemma cycleTableColor_other t prev k :
  k <> t -> cycleTableColor t prev k = prev k.
Proof.
  intros Hne. unfold cycleTableColor.
  destruct (Z.eqb_spec k t); [contradiction | reflexivity].
Qed.

Lemma iter_cycle n t prev :
  Nat.iter n (cycleTableColor t) prev t = Nat.iter n next_color (prev t).
Proof.
  induction n as [|n IH]; [reflexivity |].
  rewrite !Nat.iter_succ. now rewrite cycleTableColor_same, IH.
Qed.

(** X18. The colour button of a table always stores a palette colour for that
    table and leaves the other tables alone.  A colour that is not in
    the palette, or a missing one, is followed by the first palette
    colour; a palette colour comes back after exactly 16 presses and not
    earlier. *)
Theorem cycleTableColor_walks_palette :
  forall (t : Z) (prev : TableColors),
    (exists c, cycleTableColor t prev t = Some c /\ In c COLOR_PALETTE)
    /\ (forall k, k <> t -> cycleTableColor t prev k = prev k)
    /\ (indexOf COLOR_PALETTE (prev t) = -1 ->
        cycleTableColor t prev t = nth_error COLOR_PALETTE 0)
    /\ (forall c, prev t = Some c -> In c COLOR_PALETTE ->
          Nat.iter 16 (cycleTableColor t) prev t = Some c
          /\ forall n, (0 < n < 16)%nat ->
               Nat.iter n (cycleTableColor t) prev t <> Some c).
Proof.
  intros t prev. split; [| split; [| split]].
  - rewrite cycleTableColor_same. apply next_color_in_palette.
  - intros k Hk. now apply cycleTableColor_other.
  - intros Hidx. rewrite cycleTableColor_same. unfold next_color.
    now rewrite Hidx.
  - intros c Hc Hin. split.
    + rewrite iter_cycle, Hc. cbn in Hin.
      repeat (destruct Hin as [<- | Hin]; [vm_compute; reflexivity |]).
      contradiction.
    + intros n Hn. rewrite iter_cycle, Hc.
      assert (Hcases : In n (seq 1 15)) by (apply in_seq; lia).
      cbn in Hin.
      repeat (destruct Hin as [<- | Hin];
              [cbn in Hcases;
               repeat (destruct Hcases as [<- | Hcases];
                       [vm_compute; discriminate |]);
               contradiction |]).
      contradiction.
Qed.

Lemma cycleTableColor_walks_palette_witness :
  Nat.iter 16 (cycleTableColor 4) DEFAULT_COLORS 4 = DEFAULT_COLORS 4.
Proof.
  apply (proj1 (proj2 (proj2 (proj2
           (cycleTableColor_walks_palette 4 DEFAULT_COLORS))) _ eq_refl
           ltac:(vm_compute; tauto))).
Defined.

(** X19. Starting from the default colours, however the colour buttons are
    used, every table from 1 to 10 keeps a colour of the palette. *)
Theorem colors_stay_in_palette :
  forall (ts : list Z) (t : Z),
    1 <= t <= 10 ->
    exists c, cycled ts DEFAULT_COLORS t = Some c /\ In c COLOR_PALETTE.
Proof.
  intros ts t Ht. unfold cycled.
  assert (H0 : exists c, DEFAULT_COLORS t = Some c /\ In c COLOR_PALETTE).
  { assert (Hcases : In t [1; 2; 3; 4; 5; 6; 7; 8; 9; 10])
      by (cbn; lia).
    cbn in Hcases.
    repeat (destruct Hcases as [<- | Hcases];
            [eexists; split; [reflexivity | vm_compute; tauto] |]).
    contradiction. }
  revert H0. generalize DEFAULT_COLORS as m.
  induction ts as [|k ts IH]; intros m Hm; cbn [fold_left]; [exact Hm |].
  apply IH. destruct (Z.eq_dec t k) as [-> | Hne].
  - rewrite cycleTableColor_same. apply next_color_in_palette.
  - now rewrite cycleTableColor_other.
Qed.

Lemma colors_stay_in_palette_witness :
  exists c, cycled [3; 3; 7; 3] DEFAULT_COLORS 3 = Some c
            /\ In c COLOR_PALETTE.
Proof. apply (colors_stay_in_palette [3; 3; 7; 3] 3). lia. Defined.

(** ** Lightening *)

Lemma lighten_channel_num r amount :
  lighten_channel (JNum r) amount
  = JNum (Z.min 255 (Qfloor (inject_Z r + (255 - inject_Z r) * amount)%Q)).
Proof. reflexivity. Qed.

Lemma lighten_channel_lightened r amount :
  0 <= r <= 255 -> (0 <= amount)%Q ->
  lightened (lighten_channel (JNum r) amount) r.
Proof.
  intros Hr Ha. rewrite lighten_channel_num. eexists. split; [reflexivity |].
  split; [| apply Z.le_min_l].
  apply Z.min_glb; [lia |].
  rewrite <- (Qfloor_Z r) at 1. apply Qfloor_resp_le.
  assert (H255 : (0 <= 255 - inject_Z r)%Q).
  { assert (H : (inject_Z r <= inject_Z 255)%Q)
      by (rewrite <- Zle_Qle; lia).
    change (inject_Z 255) with 255%Q in H. lra. }
  pose proof (Qmult_le_0_compat _ _ H255 Ha). lra.
Qed.

(** X20. [lightenColor] never darkens and never leaves the colour range: for
    channels that parse to numbers from 0 to 255 and an amount that is
    not negative, each channel of the result lies between the original
    value and 255.  With amount 0 the colour is unchanged, from amount 1
    on it is white, and a channel that does not parse gives [NaN]. *)
Theorem lightenColor_bounds :
  forall (parseHex : String.string -> jsval) (hex : String.string)
         (amount : Q) (r g b : Z),
    parseHex (String.substring 1 2 hex) = JNum r ->
    parseHex (String.substring 3 2 hex) = JNum g ->
    parseHex (String.substring 5 2 hex) = JNum b ->
    0 <= r <= 255 -> 0 <= g <= 255 -> 0 <= b <= 255 ->
    (0 <= amount)%Q ->
    let '(lr, lg, lb) := lightenColor parseHex hex amount in
    lightened lr r /\ lightened lg g /\ lightened lb b
    /\ ((amount == 0)%Q -> (lr, lg, lb) = (JNum r, JNum g, JNum b))
    /\ ((1 <= amount)%Q -> (lr, lg, lb) = (JNum 255, JNum 255, JNum 255)).
Proof.
  intros parseHex hex amount r g b Hr Hg Hb Rr Rg Rb Ha.
  unfold lightenColor. rewrite Hr, Hg, Hb.
  split; [now apply lighten_channel_lightened |].
  split; [now apply lighten_channel_lightened |].
  split; [now apply lighten_channel_lightened |].
  assert (Hzero : forall c, 0 <= c <= 255 -> (amount == 0)%Q ->
                    lighten_channel (JNum c) amount = JNum c).
  { intros c Hc E. rewrite lighten_channel_num. f_equal.
    assert (E' : (inject_Z c + (255 - inject_Z c) * amount == inject_Z c)%Q)
      by (rewrite E; ring).
    rewrite (Qfloor_comp _ _ E'), Qfloor_Z. lia. }
  assert (Hone : forall c, 0 <= c <= 255 -> (1 <= amount)%Q ->
                   lighten_channel (JNum c) amount = JNum 255).
  { intros c Hc H1. rewrite lighten_channel_num. f_equal.
    apply Z.min_l.
    apply (Z.le_trans _ (Qfloor (inject_Z 255)));
      [rewrite Qfloor_Z; lia | apply Qfloor_resp_le].
    assert (H255 : (0 <= 255 - inject_Z c)%Q).
    { assert (H : (inject_Z c <= inject_Z 255)%Q)
        by (rewrite <- Zle_Qle; lia).
      change (inject_Z 255) with 255%Q in H. lra. }
    assert (Hm : (0 <= (255 - inject_Z c) * (amount - 1))%Q)
      by (apply Qmult_le_0_compat; lra).
    change (inject_Z 255) with 255%Q.
    assert (Hexp : ((255 - inject_Z c) * (amount - 1)
                    == (255 - inject_Z c) * amount - (255 - inject_Z c))%Q)
      by ring.
    rewrite Hexp in Hm. lra. }
  split.
  - intros E. now rewrite !Hzero.
  - intros H1. now rewrite !Hone.
Qed.

Lemma lightenColor_bounds_witness :
  let '(lr, lg, lb) := lightenColor demo_parseHex demo_hex (8 # 10) in
  lightened lr 59 /\ lightened lg 130 /\ lightened lb 246
  /\ ((8 # 10 == 0)%Q -> (lr, lg, lb) = (JNum 59, JNum 130, JNum 246))
  /\ ((1 <= 8 # 10)%Q -> (lr, lg, lb) = (JNum 255, JNum 255, JNum 255)).
Proof.
  apply (lightenColor_bounds demo_parseHex demo_hex (8 # 10) 59 130 246);
    try (vm_compute; reflexivity); try lia.
  discriminate.
Defined.

(** The sample colour lightened by 0.8, as the setup screen does. *)
Lemma lightenColor_demo :
  lightenColor demo_parseHex demo_hex (8 # 10)
  = (JNum 215, JNum 230, JNum 253).
Proof. vm_compute. reflexivity. Qed.

(** ** The points formula in binary64 *)

Lemma millis_from_In lo n ms :
  lo <= ms < lo + Z.of_nat n -> In ms (millis_from lo n).
Proof.
  intros H. unfold millis_from. apply in_map_iff.
  exists (Z.to_nat (ms - lo)). split; [lia |]. apply in_seq. lia.
Qed.

Lemma agree_on_first_second :
  forallb agree_on (millis_from 0 (Z.to_nat 1001)) = true.
Proof. vm_compute. reflexivity. Qed.

Lemma agree_on_whole_seconds :
  forallb (fun k => agree_on (1000 * k)) (millis_from 0 (Z.to_nat 101))
  = true.
Proof. vm_compute. reflexivity. Qed.

(** The doubles of the program give the exact value of the formula for
    every elapsed time within the first second, in milliseconds, and for
    every whole second up to 100.  Between whole seconds the exact value
    under the ceiling is at least a thousandth away from an integer, far
    more than the rounding of three operations. *)
Lemma double_points_agree ms :
  0 <= ms <= 1000 \/ (exists k, 0 <= k <= 100 /\ ms = 1000 * k) ->
  double_points ms = Some (speed_points (ms # 1000)).
Proof.
  intros Hms.
  assert (H : agree_on ms = true).
  { destruct Hms as [Hms | (k & Hk & ->)].
    - pose proof agree_on_first_second as H. rewrite forallb_forall in H.
      apply H, millis_from_In. lia.
    - pose proof agree_on_whole_seconds as H. rewrite forallb_forall in H.
      apply (H k), millis_from_In. lia. }
  unfold agree_on in H. destruct (double_points ms) as [p |];
    [| discriminate].
  apply Z.eqb_eq in H. rewrite speed_points_millis. now rewrite H.
Qed.

(** With the clock set back by 7 seconds during a question the doubles
    give 14 points where the exact value is 13: 7/6 is rounded up, and
    the product ends just above 13. *)
Lemma double_points_clock_set_back :
  double_points (-7000) = Some 14 /\ speed_points (-7000 # 1000) = 13.
Proof. split; vm_compute; reflexivity. Qed.
